(** * iot-solar-sim: the deterministic simulation and attestation core

    A shallow embedding of
      - [src/util/index.ts]      (DeterministicRNG, hashing, Merkle root, numeric helpers),
      - [src/model/pv-simulation.ts] (PVSimulationModel),
      - [src/config/index.ts]    (siteConfigSchema),
      - [src/anchor/registry-adapter-client.ts] (RegistryAdapterClient),
    together with the properties stated about them.

    JavaScript numbers are IEEE-754 binary64 values; they are modelled by the
    Standard Library's [spec_float] at precision 53 and maximal exponent 1024,
    so that every arithmetic step rounds the way the engine does. *)

From Stdlib Require Import ZArith List String Ascii Bool Lia.
From Stdlib Require Import Permutation Sorted.
From Stdlib Require Import SpecFloat.
From stdpp Require Import base option gmap sorting strings.

Import ListNotations.
Local Open Scope Z_scope.

(* ===================================================================== *)
(** ** JavaScript numbers *)
(* ===================================================================== *)

Module JsNum.

Definition prec : Z := 53.
Definition emax : Z := 1024.

Definition number : Type := spec_float.

Definition NaN : number := S754_nan.
Definition pzero : number := S754_zero false.
Definition nzero : number := S754_zero true.
Definition pinf : number := S754_infinity false.

Definition add : number -> number -> number := SFadd prec emax.
Definition sub : number -> number -> number := SFsub prec emax.
Definition mul : number -> number -> number := SFmul prec emax.
Definition div : number -> number -> number := SFdiv prec emax.
Definition neg : number -> number := SFopp.

(** [<], [<=], [>=], [>] and [==] on numbers: every comparison with NaN is
    false, and the two zeros are equal. *)
Definition lt (x y : number) : bool := SFltb x y.
Definition le (x y : number) : bool := SFleb x y.
Definition gt (x y : number) : bool := SFltb y x.
Definition ge (x y : number) : bool := SFleb y x.
Definition eqb (x y : number) : bool := SFeqb x y.

Definition isNaN (x : number) : bool :=
  match x with S754_nan => true | _ => false end.

Definition isFinite (x : number) : bool :=
  match x with S754_zero _ | S754_finite _ _ _ => true | _ => false end.

Definition isZero (x : number) : bool :=
  match x with S754_zero _ => true | _ => false end.

(** The representation is that of a binary64 value: a mantissa of at most
    53 bits, normalised, at an exponent in range. Every operation returns
    such a value. *)
Definition wellFormed (x : number) : bool := valid_binary prec emax x.

(** The number nearest to an integer (exact below 2^53). *)
Definition ofZ (z : Z) : number := binary_normalize prec emax z 0 false.

(** A decimal literal [n]e-[d], e.g. [ofDec 2345 2] for [23.45]: both
    operands are exact and the division is correctly rounded, which is how a
    literal is read. *)
Definition ofDec (n : Z) (d : nat) : number := div (ofZ n) (ofZ (10 ^ Z.of_nat d)).

(** [Math.PI] *)
Definition PI : number := ofDec 3141592653589793 15.

(** [Math.abs] *)
Definition Math_abs (x : number) : number := SFabs x.

(** [Math.min] and [Math.max] of two arguments: NaN if either is NaN, and
    -0 is smaller than +0. *)
Definition Math_min (x y : number) : number :=
  if isNaN x || isNaN y then NaN
  else if lt x y then x
  else if lt y x then y
  else match x with S754_zero true => x | _ => y end.

Definition Math_max (x y : number) : number :=
  if isNaN x || isNaN y then NaN
  else if lt x y then y
  else if lt y x then x
  else match x with S754_zero false => x | _ => y end.

(** [Math.floor] *)
Definition Math_floor (x : number) : number :=
  match x with
  | S754_finite s m e =>
      if 0 <=? e then x
      else
        let n := (if s then Zneg m else Zpos m) / 2 ^ (- e) in
        if n =? 0 then pzero else ofZ n
  | _ => x
  end.

(** [Math.round]: the nearest integer, a tie going towards +Infinity; a value
    in [-0.5, 0) gives -0. *)
Definition Math_round (x : number) : number :=
  match x with
  | S754_finite s m e =>
      if 0 <=? e then x
      else
        let n := (2 * (if s then Zneg m else Zpos m) + 2 ^ (- e)) / 2 ^ (1 - e) in
        if n =? 0 then S754_zero s else ofZ n
  | _ => x
  end.

(** The integer a number denotes when it is one ([-0] is [0]); this is the
    array index that [a[x]] reads. *)
Definition toIndex (x : number) : option nat :=
  match x with
  | S754_zero _ => Some O
  | S754_finite false m e =>
      if 0 <=? e then Some (Z.to_nat (Zpos m * 2 ^ e))
      else if (Zpos m mod 2 ^ (- e)) =? 0 then Some (Z.to_nat (Zpos m / 2 ^ (- e)))
      else None
  | _ => None
  end.

End JsNum.

Import JsNum.

Declare Scope js_scope.
Delimit Scope js_scope with js.
Infix "+" := add : js_scope.
Infix "-" := sub : js_scope.
Infix "*" := mul : js_scope.
Infix "/" := div : js_scope.
Bind Scope js_scope with number.

(* ===================================================================== *)
(** ** Strings *)
(* ===================================================================== *)

(** Strings are sequences of 8-bit code units. Everything the program hashes
    or compares (hexadecimal digests, ISO timestamps, decimal numbers, status
    words) is ASCII, where this coincides with JavaScript's strings and with
    their UTF-8 encoding. *)

Module JsString.

Local Open Scope string_scope.

(** [Array.prototype.join] *)
Definition join (sep : string) (l : list string) : string := String.concat sep l.

(** [String.prototype.startsWith] *)
Definition startsWith (s p : string) : bool := String.prefix p s.

(** [String.prototype.includes] *)
Fixpoint includes (s sub : string) : bool :=
  String.prefix sub s ||
  match s with
  | EmptyString => false
  | String _ s' => includes s' sub
  end.

(** [s.split(c)] for a one-character separator: the pieces between
    occurrences of [c]; an empty string gives one empty piece. *)
Fixpoint split (c : ascii) (s : string) : list string :=
  match s with
  | EmptyString => [EmptyString]
  | String a s' =>
      if Ascii.eqb a c then EmptyString :: split c s'
      else match split c s' with
           | p :: ps => String a p :: ps
           | [] => [String a EmptyString]
           end
  end.

Definition codes (s : string) : list Z :=
  map (fun a => Z.of_N (N_of_ascii a)) (list_ascii_of_string s).

(** The relational comparison of two strings, [s < t], code unit by code
    unit with a proper prefix first. *)
Fixpoint ltb (s t : string) : bool :=
  match s, t with
  | _, EmptyString => false
  | EmptyString, String _ _ => true
  | String a s', String b t' =>
      let x := N_of_ascii a in
      let y := N_of_ascii b in
      if (x <? y)%N then true
      else if (y <? x)%N then false
      else ltb s' t'
  end.

(** The decimal digits of a natural number, ["0"] for zero. *)
Definition digit (d : Z) : ascii := ascii_of_N (Z.to_N (48 + d)%Z).

Fixpoint decimal_aux (fuel : nat) (n : Z) (acc : string) : string :=
  match fuel with
  | O => acc
  | S fuel' =>
      let acc' := String (digit (n mod 10)%Z) acc in
      if (n <? 10)%Z then acc' else decimal_aux fuel' (n / 10)%Z acc'
  end.

Definition decimal (n : Z) : string :=
  decimal_aux (S (Z.to_nat (Z.log2 n))) n EmptyString.

(** [n.toString()] for an integer below 10^21 in magnitude. *)
Definition ofInt (n : Z) : string :=
  if (n <? 0)%Z then "-" ++ decimal (- n)%Z else decimal n.

End JsString.

(* ===================================================================== *)
(** ** SHA-256 ([createHash('sha256')] of Node's crypto module) *)
(* ===================================================================== *)

Module Sha256.

Definition w32 (x : Z) : Z := x mod 2 ^ 32.

Definition rotr (n x : Z) : Z := Z.lor (Z.shiftr x n) (w32 (Z.shiftl x (32 - n))).

Definition Ch (x y z : Z) : Z := Z.lxor (Z.land x y) (Z.land (Z.lxor x 0xffffffff) z).
Definition Maj (x y z : Z) : Z := Z.lxor (Z.lxor (Z.land x y) (Z.land x z)) (Z.land y z).
Definition bsig0 (x : Z) : Z := Z.lxor (Z.lxor (rotr 2 x) (rotr 13 x)) (rotr 22 x).
Definition bsig1 (x : Z) : Z := Z.lxor (Z.lxor (rotr 6 x) (rotr 11 x)) (rotr 25 x).
Definition ssig0 (x : Z) : Z := Z.lxor (Z.lxor (rotr 7 x) (rotr 18 x)) (Z.shiftr x 3).
Definition ssig1 (x : Z) : Z := Z.lxor (Z.lxor (rotr 17 x) (rotr 19 x)) (Z.shiftr x 10).

(** The round constants are the first 32 fractional bits of the cube roots
    of the first 64 primes, and the initial state the first 32 fractional
    bits of the square roots of the first 8 (FIPS 180-4, 4.2.2 and 5.3.3). *)
Definition isPrime (n : Z) : bool :=
  forallb (fun d => negb (n mod d =? 0)) (map Z.of_nat (seq 2 (Z.to_nat (Z.sqrt n) - 1))).

Definition primes (count : nat) : list Z :=
  firstn count (List.filter isPrime (map Z.of_nat (seq 2 310))).

(** The integer cube root, by bisection of [lo^3 <= n < hi^3]. *)
Fixpoint cbrtBetween (fuel : nat) (lo hi n : Z) : Z :=
  match fuel with
  | O => lo
  | S fuel' =>
      if hi - lo <=? 1 then lo
      else
        let mid := (lo + hi) / 2 in
        if mid * mid * mid <=? n then cbrtBetween fuel' mid hi n
        else cbrtBetween fuel' lo mid n
  end.

Definition K : list Z :=
  map (fun p => w32 (cbrtBetween 40 0 (2 ^ 36) (p * 2 ^ 96))) (primes 64).

Definition H0 : list Z :=
  map (fun p => w32 (Z.sqrt (p * 2 ^ 64))) (primes 8).

(** Big-endian bytes of a value, [n] of them. *)
Fixpoint be_bytes (n : nat) (x : Z) : list Z :=
  match n with
  | O => []
  | S n' => (Z.shiftr x (8 * Z.of_nat n')) mod 256 :: be_bytes n' x
  end.

Definition pad (msg : list Z) : list Z :=
  let len := Z.of_nat (length msg) in
  let zeros := Z.to_nat ((55 - len) mod 64) in
  msg ++ [0x80] ++ repeat 0 zeros ++ be_bytes 8 (8 * len).

Fixpoint words (fuel : nat) (bs : list Z) : list Z :=
  match fuel, bs with
  | S fuel', b0 :: b1 :: b2 :: b3 :: rest =>
      (b0 * 2 ^ 24 + b1 * 2 ^ 16 + b2 * 2 ^ 8 + b3) :: words fuel' rest
  | _, _ => []
  end.

Fixpoint schedule (n : nat) (w : list Z) : list Z :=
  match n with
  | O => w
  | S n' =>
      let t := length w in
      let at_ (k : nat) := nth (t - k) w 0 in
      schedule n' (w ++ [w32 (ssig1 (at_ 2%nat) + at_ 7%nat + ssig0 (at_ 15%nat) + at_ 16%nat)])
  end.

Definition round (st : list Z) (kw : Z * Z) : list Z :=
  match st with
  | [a; b; c; d; e; f; g; h] =>
      let t1 := h + bsig1 e + Ch e f g + fst kw + snd kw in
      let t2 := bsig0 a + Maj a b c in
      [w32 (t1 + t2); a; b; c; w32 (d + t1); e; f; g]
  | _ => st
  end.

Definition compress (h : list Z) (block : list Z) : list Z :=
  let w := schedule 48 (words 16 block) in
  let st := fold_left round (combine K w) h in
  map (fun p => w32 (fst p + snd p)) (combine h st).

Fixpoint blocks (fuel : nat) (h : list Z) (bs : list Z) : list Z :=
  match fuel with
  | O => h
  | S fuel' =>
      match bs with
      | [] => h
      | _ => blocks fuel' (compress h (firstn 64 bs)) (skipn 64 bs)
      end
  end.

(** The eight state words after the whole message. *)
Definition digest_words (msg : string) : list Z :=
  let bs := pad (JsString.codes msg) in
  blocks (length bs) H0 bs.

(** [.digest()]: the 32 bytes of the digest. *)
Definition digest (msg : string) : list Z :=
  flat_map (be_bytes 4) (digest_words msg).

Definition hexdigit (d : Z) : ascii :=
  ascii_of_N (Z.to_N (if d <? 10 then 48 + d else 87 + d)).

Definition hex_of_bytes (bs : list Z) : string :=
  string_of_list_ascii (flat_map (fun b => [hexdigit (b / 16); hexdigit (b mod 16)]) bs).

(** [buf.readUInt32LE(off)] *)
Definition readUInt32LE (buf : list Z) (off : nat) : Z :=
  nth off buf 0 + nth (off + 1) buf 0 * 2 ^ 8 + nth (off + 2) buf 0 * 2 ^ 16
  + nth (off + 3) buf 0 * 2 ^ 24.

End Sha256.

(** [sha256] of [src/util/index.ts]: the hexadecimal digest of a string. *)
Definition sha256 (data : string) : string :=
  Sha256.hex_of_bytes (Sha256.digest data).

(* ===================================================================== *)
(** ** Rendering numbers *)
(* ===================================================================== *)

Module JsFormat.

Local Open Scope string_scope.

(** The exact value [m * 2^e * 10^fd] rounded to the nearest integer, a tie
    going up: the integer [n] that [toFixed] picks ("n / 10^f - x is as close
    to zero as possible; if there are two such n, pick the larger"). *)
Definition scaled (fd : nat) (m : positive) (e : Z) : Z :=
  let t := (Zpos m * 10 ^ Z.of_nat fd)%Z in
  if (0 <=? e)%Z then (t * 2 ^ e)%Z
  else ((2 * t + 2 ^ (- e)) / 2 ^ (1 - e))%Z.

(** The digits of [n] with a decimal point before the last [fd] of them. *)
Definition fixedDigits (n : Z) (fd : nat) : string :=
  let m := JsString.decimal n in
  match fd with
  | O => m
  | _ =>
      let k := String.length m in
      let m' := if (k <=? fd)%nat
                then string_of_list_ascii (repeat "0"%char (fd + 1 - k)) ++ m
                else m in
      let k' := String.length m' in
      substring 0 (k' - fd) m' ++ "." ++ substring (k' - fd) fd m'
  end.

(** Whether the magnitude [m * 2^e] is at least [10^21]. *)
Definition atLeast1e21 (m : positive) (e : Z) : bool :=
  if (0 <=? e)%Z then (10 ^ 21 <=? Zpos m * 2 ^ e)%Z
  else (10 ^ 21 * 2 ^ (- e) <=? Zpos m)%Z.

(** [Number::toString] for a magnitude of at least [10^21], an integer [X]:
    the shortest digit string [s] (of [k] digits) with [s * 10^(n-k)]
    reading back as the same number, the closest one among several, in
    exponent notation. *)
Definition readsBack (x : number) (s p : Z) : bool :=
  eqb (ofZ (s * 10 ^ p)) x.

Definition candidates (x : number) (X : Z) (nd : Z) (k : Z) : list (Z * Z) :=
  flat_map (fun n =>
    let p := (n - k)%Z in
    let s0 := (X / 10 ^ p)%Z in
    flat_map (fun s =>
      if ((10 ^ (k - 1) <=? s) && (s <? 10 ^ k) && readsBack x s p)%Z%bool
      then [(s, n)] else [])
      [s0; (s0 + 1)%Z])
    [nd; (nd + 1)%Z].

Definition closest (X : Z) (k : Z) (c d : Z * Z) : Z * Z :=
  let dist (q : Z * Z) := Z.abs (fst q * 10 ^ (snd q - k) - X) in
  if (dist d <? dist c)%Z then d else c.

Fixpoint shortest (fuel : nat) (x : number) (X nd k : Z) : option (Z * Z * Z) :=
  match fuel with
  | O => None
  | S fuel' =>
      match candidates x X nd k with
      | c :: cs => let '(s, n) := fold_left (closest X k) cs c in Some (s, n, k)
      | [] => shortest fuel' x X nd (k + 1)%Z
      end
  end.

Definition toStringLarge (m : positive) (e : Z) : string :=
  let X := (Zpos m * 2 ^ e)%Z in
  let x := ofZ X in
  let nd := Z.of_nat (String.length (JsString.decimal X)) in
  match shortest 17 x X nd 1 with
  | Some (s, n, k) =>
      let ds := JsString.decimal s in
      let mant := if (k =? 1)%Z then ds
                  else substring 0 1 ds ++ "." ++ substring 1 (Z.to_nat k - 1) ds in
      mant ++ "e+" ++ JsString.decimal (n - 1)
  | None => JsString.decimal X
  end.

(** [Number.prototype.toFixed] *)
Definition toFixed (x : number) (fd : nat) : string :=
  match x with
  | S754_nan => "NaN"
  | S754_infinity s => if s then "-Infinity" else "Infinity"
  | S754_zero _ => fixedDigits 0 fd
  | S754_finite s m e =>
      (if s then "-" else "") ++
      (if atLeast1e21 m e then toStringLarge m e
       else fixedDigits (scaled fd m e) fd)
  end.

End JsFormat.

(* ===================================================================== *)
(** ** Dates *)
(* ===================================================================== *)

(** A [Date] is its time value, the milliseconds since the epoch. *)
Module JsDate.

Definition Date : Type := Z.

Definition msPerDay : Z := 86400000.

Definition getTime (d : Date) : Z := d.
Definition getUTCHours (d : Date) : Z := (d / 3600000) mod 24.
Definition getUTCMinutes (d : Date) : Z := (d / 60000) mod 60.
(** 1 January 1970 was a Thursday. *)
Definition getUTCDay (d : Date) : Z := (d / msPerDay + 4) mod 7.

(** Days since the epoch of a civil date, and the civil year of a day. *)
Definition daysFromCivil (y m d : Z) : Z :=
  let y' := if m <=? 2 then y - 1 else y in
  let era := y' / 400 in
  let yoe := y' - era * 400 in
  let doy := (153 * (if 2 <? m then m - 3 else m + 9) + 2) / 5 + d - 1 in
  let doe := yoe * 365 + yoe / 4 - yoe / 100 + doy in
  era * 146097 + doe - 719468.

Definition civilFromDays (z : Z) : Z * Z * Z :=
  let z' := z + 719468 in
  let era := z' / 146097 in
  let doe := z' - era * 146097 in
  let yoe := (doe - doe / 1460 + doe / 36524 - doe / 146096) / 365 in
  let doy := doe - (365 * yoe + yoe / 4 - yoe / 100) in
  let mp := (5 * doy + 2) / 153 in
  let d := doy - (153 * mp + 2) / 5 + 1 in
  let m := if mp <? 10 then mp + 3 else mp - 9 in
  let y := yoe + era * 400 in
  ((if m <=? 2 then y + 1 else y), m, d).

Definition getUTCFullYear (d : Date) : Z := fst (fst (civilFromDays (d / msPerDay))).

Definition pad2 (n : Z) : string :=
  String (JsString.digit (n / 10)) (String (JsString.digit (n mod 10)) EmptyString).

Definition pad3 (n : Z) : string :=
  String (JsString.digit (n / 100)) (pad2 (n mod 100)).

(** [toISOString] for the years 0000 to 9999. *)
Definition toISOString (d : Date) : string :=
  let '(y, m, dd) := civilFromDays (d / msPerDay) in
  (pad2 (y / 100) ++ pad2 (y mod 100) ++ "-" ++ pad2 m ++ "-" ++ pad2 dd ++ "T"
   ++ pad2 (getUTCHours d) ++ ":" ++ pad2 (getUTCMinutes d) ++ ":"
   ++ pad2 ((d / 1000) mod 60) ++ "." ++ pad3 (d mod 1000) ++ "Z")%string.

End JsDate.

(* ===================================================================== *)
(** ** The host *)
(* ===================================================================== *)

(** The part of the host that the language leaves to the implementation:
    the transcendental functions of [Math] ("implementation-approximated"),
    [Number] applied to a string, and the local time zone, through the time
    value of [new Date(d.getFullYear(), 0, 1)]. *)
Record Host : Type := {
  Math_sin : number -> number;
  Math_cos : number -> number;
  Math_tan : number -> number;
  Math_asin : number -> number;
  Math_atan2 : number -> number -> number;
  Math_exp : number -> number;
  Math_log : number -> number;
  Math_pow : number -> number -> number;
  Number_ofString : string -> number;
  localYearStart : JsDate.Date -> Z
}.

(** [Math.sqrt] is the correctly rounded square root. *)
Definition Math_sqrt (x : number) : number := SFsqrt prec emax x.

(* ===================================================================== *)
(** ** src/util/index.ts *)
(* ===================================================================== *)

Module Util.

Local Open Scope js_scope.

(** *** Numeric utilities *)

(** [roundToDecimals(value, decimals)]; [decimals] is a literal 1 or 3 at
    every call, where [Math.pow(10, decimals)] is the exact power. *)
Definition roundToDecimals (value : number) (decimals : nat) : number :=
  let factor := ofZ (10 ^ Z.of_nat decimals) in
  Math_round (value * factor) / factor.

Definition clamp (value min max : number) : number :=
  Math_min (Math_max value min) max.

(** *** DeterministicRNG *)

(** The four state words, the spare value of [normal], and a count of the
    calls of [next] made so far. The count is not in the source: it is kept
    here to observe whether a draw was made. *)
Record RNG : Type := {
  state : Z * Z * Z * Z;
  _spare : option number;
  draws : nat
}.

Definition toUint32 (z : Z) : Z := (z mod 2 ^ 32)%Z.
Definition toInt32 (z : Z) : Z :=
  let u := toUint32 z in if (u <? 2 ^ 31)%Z then u else (u - 2 ^ 32)%Z.

(** [x << n], [x >>> n] and [x | y] on numbers holding integers *)
Definition shl (x n : Z) : Z := toInt32 (Z.shiftl (toInt32 x) n).
Definition ushr (x n : Z) : Z := Z.shiftr (toUint32 x) n.
Definition bor (x y : Z) : Z := toInt32 (Z.lor (toInt32 x) (toInt32 y)).

(** The constructor: the first sixteen bytes of the SHA-256 digest of
    [seed.toString()], read as four little-endian words. The seed is an
    integer that a number holds exactly, below [10^21] in magnitude, where
    [toString] writes every digit. *)
Definition newRNG (seed : Z) : RNG :=
  let hash := Sha256.digest (JsString.ofInt seed) in
  {| state := (Sha256.readUInt32LE hash 0, Sha256.readUInt32LE hash 4,
               Sha256.readUInt32LE hash 8, Sha256.readUInt32LE hash 12);
     _spare := None;
     draws := 0 |}.

(** The integer [r >>> 0] that [next] divides by 2^32. *)
Definition nextWord (st : Z * Z * Z * Z) : Z :=
  let '(a, b, c, d) := st in
  let t := shl b 9 in
  let r := (a * 5)%Z in
  let r := (bor (shl r 7) (ushr r 25) * 9)%Z in
  ushr r 0.

Definition next (g : RNG) : number * RNG :=
  let '(a, b, c, d) := state g in
  (ofZ (nextWord (a, b, c, d)) / ofZ 0x100000000,
   {| state := (a, b, c, d); _spare := _spare g; draws := S (draws g) |}).

Definition range (min max : number) (g : RNG) : number * RNG :=
  let '(u, g) := next g in
  (min + u * (max - min), g).

Definition int (min max : number) (g : RNG) : number * RNG :=
  let '(v, g) := range min (max + ofZ 1) g in
  (Math_floor v, g).

Definition boolean (probability : number) (g : RNG) : bool * RNG :=
  let '(u, g) := next g in
  (lt u probability, g).

(** [array[i]] is [undefined], here [None], when [i] is not an index of the
    array. *)
Definition choice {T : Type} (array : list T) (g : RNG) : option T * RNG :=
  let '(i, g) := int (ofZ 0) (ofZ (Z.of_nat (length array)) - ofZ 1) g in
  (match toIndex i with Some k => nth_error array k | None => None end, g).

Definition normal (H : Host) (mean stdDev : number) (g : RNG) : number * RNG :=
  match _spare g with
  | Some value =>
      (value * stdDev + mean,
       {| state := state g; _spare := None; draws := draws g |})
  | None =>
      let '(u1, g) := next g in
      let '(u2, g) := next g in
      let mag := Math_sqrt (ofZ (-2) * Math_log H u1) in
      let spare := mag * Math_sin H (ofZ 2 * PI * u2) in
      (mag * Math_cos H (ofZ 2 * PI * u2) * stdDev + mean,
       {| state := state g; _spare := Some spare; draws := draws g |})
  end.

(** *** Hashing utilities *)

Definition hashTelemetryRow (siteId tsUtc : string)
    (acEnergyKwh acPowerKw poaIrrWm2 tempC : number) (status : string) : string :=
  let data := JsString.join "|"
    [ siteId; tsUtc;
      JsFormat.toFixed acEnergyKwh 3;
      JsFormat.toFixed acPowerKw 3;
      JsFormat.toFixed poaIrrWm2 1;
      JsFormat.toFixed tempC 1;
      status ] in
  sha256 data.

(** *** Merkle tree *)

(** [[...hashes].sort()]: the default order compares strings code unit by
    code unit; the sort is stable, and as equal strings are the same string
    its result is the one sorted arrangement of the elements. *)
Fixpoint insertSorted (x : string) (l : list string) : list string :=
  match l with
  | [] => [x]
  | y :: l' => if JsString.ltb x y then x :: l else y :: insertSorted x l'
  end.

Definition sort (l : list string) : list string := fold_right insertSorted [] l.

(** One pass of the [for] loop: adjacent entries are combined, and
    [currentLevel[i + 1] || left] takes [left] when the right entry is
    missing or is the empty string. *)
Fixpoint nextLevel (currentLevel : list string) : list string :=
  match currentLevel with
  | [] => []
  | [left_] => [sha256 (left_ ++ left_)%string]
  | left_ :: next_ :: rest =>
      let right_ := match next_ with EmptyString => left_ | _ => next_ end in
      sha256 (left_ ++ right_)%string :: nextLevel rest
  end.

(** The [while (currentLevel.length > 1)] loop; a level of [n] entries is
    reduced to one entry within [n] passes. *)
Fixpoint whileLevels (fuel : nat) (currentLevel : list string) : list string :=
  match fuel with
  | O => currentLevel
  | S fuel' =>
      if (1 <? length currentLevel)%nat
      then whileLevels fuel' (nextLevel currentLevel)
      else currentLevel
  end.

Definition buildMerkleRoot (hashes : list string) : string :=
  match hashes with
  | [] => sha256 ""
  | [h] => h
  | _ =>
      let sortedHashes := sort hashes in
      let currentLevel := whileLevels (length sortedHashes) sortedHashes in
      hd EmptyString currentLevel
  end.

End Util.

(* ===================================================================== *)
(** ** src/config/index.ts *)
(* ===================================================================== *)

Module Config.

Local Open Scope string_scope.

Record OutageWindow : Type := {
  start : string;
  end_ : string;
  days : string
}.

(** The output type of [siteConfigSchema]. *)
Record SiteConfig : Type := {
  siteId : string;
  name : string;
  country : string;
  timezone : string;
  lat : number;
  lon : number;
  capacityDcKW : number;
  capacityAcKW : number;
  tiltDeg : number;
  azimuthDeg : number;
  modules : number;
  inverterEff : number;
  degradationPctPerYear : number;
  baselineKgPerKwh : number;
  outageWindows : list OutageWindow;
  curtailmentPct : number
}.

(** The object that the schema yields: a [z.object] keeps the declared keys
    and strips every other one. *)
Inductive value : Type :=
  | VUndefined
  | VNumber (n : number)
  | VString (s : string)
  | VWindows (l : list OutageWindow).

Definition properties (site : SiteConfig) : list (string * value) :=
  [ ("siteId", VString (siteId site));
    ("name", VString (name site));
    ("country", VString (country site));
    ("timezone", VString (timezone site));
    ("lat", VNumber (lat site));
    ("lon", VNumber (lon site));
    ("capacityDcKW", VNumber (capacityDcKW site));
    ("capacityAcKW", VNumber (capacityAcKW site));
    ("tiltDeg", VNumber (tiltDeg site));
    ("azimuthDeg", VNumber (azimuthDeg site));
    ("modules", VNumber (modules site));
    ("inverterEff", VNumber (inverterEff site));
    ("degradationPctPerYear", VNumber (degradationPctPerYear site));
    ("baselineKgPerKwh", VNumber (baselineKgPerKwh site));
    ("outageWindows", VWindows (outageWindows site));
    ("curtailmentPct", VNumber (curtailmentPct site)) ].

(** [site.key]: a property that the object does not have reads as
    [undefined]. *)
Fixpoint lookupProp (key : string) (ps : list (string * value)) : value :=
  match ps with
  | [] => VUndefined
  | (k, v) :: ps' => if String.eqb k key then v else lookupProp key ps'
  end.

Definition getProp (site : SiteConfig) (key : string) : value :=
  lookupProp key (properties site).

(** A property read where a number is used: [undefined] becomes NaN in
    arithmetic and in [Math.min]. *)
Definition numberProp (site : SiteConfig) (key : string) : number :=
  match getProp site key with
  | VNumber n => n
  | _ => NaN
  end.

(** What the schema checks of the numbers: [z.number()] rejects NaN. *)
Definition validSiteConfig (site : SiteConfig) : bool :=
  forallb (fun x => negb (isNaN x))
    [ lat site; lon site; capacityDcKW site; capacityAcKW site; tiltDeg site;
      azimuthDeg site; modules site; inverterEff site;
      degradationPctPerYear site; baselineKgPerKwh site; curtailmentPct site ].

Definition toTco2e (energyKwh factorKgPerKwh : number) : number :=
  div (mul energyKwh factorKgPerKwh) (ofZ 1000).

End Config.

(* ===================================================================== *)
(** ** src/model/pv-simulation.ts *)
(* ===================================================================== *)

Module PVSimulationModel.

Import Config Util JsDate.
Local Open Scope js_scope.

(** Methods that draw from the generator thread its state. *)
Definition Rand (A : Type) : Type := RNG -> A * RNG.

Definition ret {A : Type} (a : A) : Rand A := fun g => (a, g).

Definition bind {A B : Type} (m : Rand A) (k : A -> Rand B) : Rand B :=
  fun g => let '(a, g') := m g in k a g'.

Notation "'let*' x ':=' m 'in' k" := (bind m (fun x => k))
  (at level 10, x name, m at level 100, k at level 200).

Record TelemetryData : Type := {
  tsUtc : string;
  poaIrrWm2 : number;
  tempC : number;
  windMps : number;
  acPowerKw : number;
  acEnergyKwh : number;
  status : string
}.

Section Model.

Variable H : Host.
Variable site : SiteConfig.

(** [date.getUTCHours() + date.getUTCMinutes() / 60] *)
Definition utcHours (date : Date) : number :=
  ofZ (getUTCHours date) + ofZ (getUTCMinutes date) / ofZ 60.

(** [Math.floor((date.getTime() - new Date(date.getFullYear(), 0, 1).getTime())
    / (24 * 60 * 60 * 1000))] *)
Definition daysIntoYear (date : Date) : number :=
  Math_floor (ofZ (getTime date - localYearStart H date) / ofZ (24 * 60 * 60 * 1000)).

(** The constants [declination], [hourAngle], [elevation] and [azimuth] of
    [calculateIrradiance]. *)
Definition declinationAt (date : Date) : number :=
  let dayOfYear := daysIntoYear date + ofZ 1 in
  ofDec 2345 2 * Math_sin H ((ofZ 284 + dayOfYear) * PI / ofZ 180) * PI / ofZ 180.

Definition hourAngleAt (date : Date) : number :=
  (utcHours date - ofZ 12) * ofZ 15 * PI / ofZ 180.

Definition elevationAt (date : Date) : number :=
  let latRad := (numberProp site "lat" * PI) / ofZ 180 in
  let declination := declinationAt date in
  let hourAngle := hourAngleAt date in
  Math_asin H
    (Math_sin H latRad * Math_sin H declination +
     Math_cos H latRad * Math_cos H declination * Math_cos H hourAngle).

Definition azimuthAt (date : Date) : number :=
  let latRad := (numberProp site "lat" * PI) / ofZ 180 in
  let declination := declinationAt date in
  let hourAngle := hourAngleAt date in
  Math_atan2 H
    (Math_sin H hourAngle)
    (Math_cos H hourAngle * Math_sin H latRad - Math_tan H declination * Math_cos H latRad).

Definition calculateCloudVariation (date : Date) : Rand number :=
  let timeOfDay := utcHours date in
  let dayOfYear := daysIntoYear date in
  let seasonalVariation :=
    ofDec 8 1 + ofDec 4 1 * Math_sin H (ofZ 2 * PI * dayOfYear / ofZ 365) in
  let dailyVariation :=
    ofDec 7 1 + ofDec 6 1 * Math_sin H (PI * (timeOfDay - ofZ 6) / ofZ 12) in
  let* randomFactor := range (ofDec 3 1) (ofDec 12 1) in
  ret (clamp (seasonalVariation * dailyVariation * randomFactor) (ofDec 1 1) (ofZ 1)).

Definition calculateIrradiance (date : Date) : Rand number :=
  let lonRad := (numberProp site "lon" * PI) / ofZ 180 in
  let dayOfYear := daysIntoYear date + ofZ 1 in
  let elevation := elevationAt date in
  let azimuth := azimuthAt date in
  if le elevation (ofZ 0) then ret (ofZ 0)
  else
    let tiltRad := (numberProp site "tiltDeg" * PI) / ofZ 180 in
    let azimuthRad := (numberProp site "azimuthDeg" * PI) / ofZ 180 in
    let cosIncidence :=
      Math_sin H elevation * Math_cos H tiltRad +
      Math_cos H elevation * Math_sin H tiltRad * Math_cos H (azimuth - azimuthRad) in
    let solarConstant := ofZ 1367 in
    let earthSunDistance :=
      ofZ 1 + ofDec 33 3 * Math_cos H (ofZ 2 * PI * dayOfYear / ofZ 365) in
    let extraterrestrialIrradiance :=
      solarConstant * earthSunDistance * Math_sin H elevation in
    let airMass := ofZ 1 / Math_sin H elevation in
    let atmosphericTransmittance :=
      Math_pow H (ofDec 7 1) (Math_pow H airMass (ofDec 678 3)) in
    let dni := extraterrestrialIrradiance * atmosphericTransmittance in
    let diffuseFraction := ofDec 1 1 + ofDec 3 1 * Math_exp H (neg dni / ofZ 200) in
    let diffuseIrradiance := dni * diffuseFraction in
    let globalHorizontalIrradiance := dni * Math_sin H elevation + diffuseIrradiance in
    let poaIrr :=
      dni * Math_max (ofZ 0) cosIncidence +
      diffuseIrradiance * (ofZ 1 + Math_cos H tiltRad) / ofZ 2 in
    let* cloudVariation := calculateCloudVariation date in
    let finalPoaIrr := Math_max (ofZ 0) (poaIrr * cloudVariation) in
    ret (roundToDecimals finalPoaIrr 1).

Definition calculateTemperature (date : Date) : Rand number :=
  let lat := numberProp site "lat" in
  let dayOfYear := daysIntoYear date in
  let timeOfDay := utcHours date in
  let baseTemp := ofZ 25 - (Math_abs lat - ofZ 30) * ofDec 5 1 in
  let seasonalVariation :=
    ofZ 10 * Math_sin H (ofZ 2 * PI * (dayOfYear - ofZ 80) / ofZ 365) in
  let dailyVariation := ofZ 8 * Math_sin H (PI * (timeOfDay - ofZ 6) / ofZ 12) in
  let* randomVariation := normal H (ofZ 0) (ofZ 2) in
  let tempC := baseTemp + seasonalVariation + dailyVariation + randomVariation in
  ret (roundToDecimals (clamp tempC (ofZ (-10)) (ofZ 50)) 1).

Definition calculateWindSpeed (date : Date) : Rand number :=
  let timeOfDay := utcHours date in
  let dailyVariation := ofZ 2 + ofZ 3 * Math_sin H (PI * (timeOfDay - ofZ 6) / ofZ 12) in
  let* randomVariation := range (ofZ 0) (ofZ 5) in
  let windMps := Math_max (ofZ 0) (dailyVariation + randomVariation) in
  ret (roundToDecimals windMps 1).

Definition calculateDcPower (poaIrrWm2 tempC : number) : number :=
  let moduleEfficiency := ofDec 20 2 in
  let tempCoeff := ofDec (-4) 3 in
  let tempLoss := tempCoeff * (tempC - ofZ 25) in
  let moduleArea := numberProp site "modules" * ofZ 2 in
  let dcPowerKw :=
    (poaIrrWm2 * moduleArea * moduleEfficiency * (ofZ 1 + tempLoss)) / ofZ 1000 in
  roundToDecimals (Math_max (ofZ 0) dcPowerKw) 3.

(** The capacity is read as [this.site.capacityAcKw]. *)
Definition calculateAcPower (dcPowerKw : number) : number :=
  let acPowerKw := dcPowerKw * numberProp site "inverterEff" in
  let limitedAcPowerKw := Math_min acPowerKw (numberProp site "capacityAcKw") in
  roundToDecimals limitedAcPowerKw 3.

Definition calculateEnergy (acPowerKw intervalMinutes : number) : number :=
  let intervalHours := intervalMinutes / ofZ 60 in
  let energyKwh := acPowerKw * intervalHours in
  roundToDecimals energyKwh 3.

(** [timeStr.split(':').map(Number)], destructured as [[hours, minutes]]: a
    missing second piece is [undefined], and [undefined / 60] is NaN. *)
Definition parseTime (timeStr : string) : number :=
  match map (Number_ofString H) (JsString.split ":" timeStr) with
  | hours :: minutes :: _ => hours + minutes / ofZ 60
  | [hours] => hours + NaN / ofZ 60
  | [] => NaN
  end.

Definition dayNames : list string :=
  ["SUN"; "MON"; "TUE"; "WED"; "THU"; "FRI"; "SAT"]%string.

Definition matchesDayPattern (dayOfWeek : Z) (pattern : string) : bool :=
  let currentDay := nth (Z.to_nat dayOfWeek) dayNames ""%string in
  JsString.includes pattern currentDay || String.eqb pattern "ALL".

(** Whether one window of the [for] loop of [checkOutage] returns [true]. *)
Definition inWindow (date : Date) (window : OutageWindow) : bool :=
  let timeOfDay := utcHours date in
  let dayOfWeek := getUTCDay date in
  let startHour := parseTime (start window) in
  let endHour := parseTime (end_ window) in
  if ge timeOfDay startHour && le timeOfDay endHour
  then matchesDayPattern dayOfWeek (days window)
  else false.

Fixpoint checkOutageLoop (date : Date) (windows : list OutageWindow) : bool :=
  match windows with
  | [] => false
  | window :: rest => if inWindow date window then true else checkOutageLoop date rest
  end.

Definition checkOutage (date : Date) : bool :=
  checkOutageLoop date (outageWindows site).

Definition checkCurtailment : Rand bool :=
  let* u := next in
  ret (lt u (numberProp site "curtailmentPct")).

Definition generateTelemetry (date : Date) (intervalMinutes : number)
  : Rand TelemetryData :=
  let* poaIrrWm2 := calculateIrradiance date in
  let* tempC := calculateTemperature date in
  let* windMps := calculateWindSpeed date in
  let isOutage := checkOutage date in
  let* isCurtailed := (if negb isOutage then checkCurtailment else ret false) in
  let acPowerKw :=
    if isOutage then ofZ 0
    else if isCurtailed then ofZ 0
    else if gt poaIrrWm2 (ofZ 0)
         then calculateAcPower (calculateDcPower poaIrrWm2 tempC)
         else ofZ 0 in
  let status :=
    (if isOutage then "OUTAGE"
     else if isCurtailed then "CURTAILED"
     else "OK")%string in
  let acEnergyKwh := calculateEnergy acPowerKw intervalMinutes in
  ret {| tsUtc := toISOString date;
         poaIrrWm2 := poaIrrWm2;
         tempC := tempC;
         windMps := windMps;
         acPowerKw := acPowerKw;
         acEnergyKwh := acEnergyKwh;
         status := status |}.

End Model.

(** [new PVSimulationModel(site, seed)] holds the site and a generator of
    its own. *)
Definition newModel (seed : Z) : RNG := newRNG seed.

End PVSimulationModel.

(* ===================================================================== *)
(** ** Exceptions *)
(* ===================================================================== *)

(** What a [catch] clause tells apart in the value that was thrown. *)
Inductive JsError : Type :=
  | AxiosError (responseError : option string) (message : string)
  | ErrorObject (message : string)
  | NonError.

(** A call either returns a value or throws. *)
Inductive Outcome (A : Type) : Type :=
  | Returned (a : A)
  | Thrown (e : JsError).

Arguments Returned {A} a.
Arguments Thrown {A} e.

Definition throws {A : Type} (o : Outcome A) : Prop :=
  exists e, o = Thrown e.

(* ===================================================================== *)
(** ** src/aggregate/digest-generator.ts: the Merkle root of a day *)
(* ===================================================================== *)

Module DigestGenerator.

Local Open Scope string_scope.

(** A call of [buildMerkleRoot]: the function has no [throw] and returns on
    every path. *)
Definition callBuildMerkleRoot (hashes : list string) : Outcome string :=
  Returned (Util.buildMerkleRoot hashes).

(** The steps of [generateDigestArtifacts] from the query result to the
    root: [rowHashes] are the row hashes of the telemetry rows found for the
    site and day. *)
Definition merkleRootOfDay (siteId dayUtc : string) (rowHashes : list string)
  : Outcome string :=
  if (length rowHashes =? 0)%nat
  then Thrown (ErrorObject ("No telemetry data found for site " ++ siteId ++ " on " ++ dayUtc))
  else callBuildMerkleRoot rowHashes.

End DigestGenerator.

(* ===================================================================== *)
(** ** src/anchor/registry-adapter-client.ts *)
(* ===================================================================== *)

Module RegistryAdapterClient.

Local Open Scope string_scope.

Record AnchorRequest : Type := {
  topic : string;
  hash : string;
  uri : option string
}.

Record AnchorResponse : Type := {
  adapterTxId : string;
  txHash : string;
  blockNumber : number;
  success : bool;
  error : option string
}.

Record AnchorStatus : Type := {
  ok : bool;
  statusError : option string
}.

(** The body of a 2xx answer of [POST /v1/anchor]. *)
Record AnchorData : Type := {
  dataAdapterTxId : string;
  dataTxHash : string;
  dataBlockNumber : number
}.

(** What the client does to the outside, in order. Console output is left
    out. *)
Inductive Event : Type :=
  | EPost (url : string) (body : AnchorRequest)
  | EGet (url : string)
  | ESleep (ms : Z).

(** The outside world: the requests issued so far and the events so far. *)
Record World : Type := {
  requests : nat;
  trace : list Event
}.

(** The adapter service: what the [n]-th request of the process gets. A
    request that axios rejects (transport failure, or a status outside 2xx)
    throws. *)
Record Adapter : Type := {
  onPost : nat -> AnchorRequest -> Outcome AnchorData;
  onGet : nat -> Outcome Z
}.

Definition IO (A : Type) : Type := World -> Outcome A * World.

Definition ioRet {A : Type} (a : A) : IO A := fun w => (Returned a, w).

Definition ioBind {A B : Type} (m : IO A) (k : A -> IO B) : IO B :=
  fun w =>
    match m w with
    | (Returned a, w') => k a w'
    | (Thrown e, w') => (Thrown e, w')
    end.

(** [try { m } catch (error) { handler }] *)
Definition tryCatch {A : Type} (m : IO A) (handler : JsError -> IO A) : IO A :=
  fun w =>
    match m w with
    | (Returned a, w') => (Returned a, w')
    | (Thrown e, w') => handler e w'
    end.

Notation "'await' x ':=' m 'in' k" := (ioBind m (fun x => k))
  (at level 10, x name, m at level 100, k at level 200).

Section Client.

Variable adapter : Adapter.

(** [this.enabled], set by the constructor from [config.anchorEnabled]. *)
Record Client : Type := { enabled : bool }.

Definition newClient (anchorEnabled : bool) : Client :=
  {| enabled := anchorEnabled |}.

Definition clientPost (url : string) (body : AnchorRequest) : IO AnchorData :=
  fun w =>
    (onPost adapter (requests w) body,
     {| requests := S (requests w); trace := trace w ++ [EPost url body] |}).

Definition clientGet (url : string) : IO Z :=
  fun w =>
    (onGet adapter (requests w),
     {| requests := S (requests w); trace := trace w ++ [EGet url] |}).

Definition sleep (ms : Z) : IO unit :=
  fun w => (Returned tt, {| requests := requests w; trace := trace w ++ [ESleep ms] |}).

Definition failure (message : option string) : AnchorResponse :=
  {| adapterTxId := ""; txHash := ""; blockNumber := ofZ 0;
     success := false; error := message |}.

(** [error.response?.data?.error || error.message] *)
Definition axiosMessage (responseError : option string) (message : string) : string :=
  match responseError with
  | Some "" | None => message
  | Some e => e
  end.

Definition anchorDigest (c : Client) (siteId dayUtc merkleRoot : string)
    (uri : option string) : IO AnchorResponse :=
  if negb (enabled c) then ioRet (failure (Some "Anchoring is disabled"))
  else
    let topic := "IOT:" ++ siteId ++ ":" ++ dayUtc in
    let hash := if JsString.startsWith merkleRoot "0x" then merkleRoot
                else "0x" ++ merkleRoot in
    let request := {| topic := topic; hash := hash; uri := uri |} in
    tryCatch
      (await response := clientPost "/v1/anchor" request in
       ioRet {| adapterTxId := dataAdapterTxId response;
                txHash := dataTxHash response;
                blockNumber := dataBlockNumber response;
                success := true;
                error := None |})
      (fun error =>
         match error with
         | AxiosError responseError message =>
             ioRet (failure (Some (axiosMessage responseError message)))
         | ErrorObject message => ioRet (failure (Some message))
         | NonError => ioRet (failure (Some "Unknown error"))
         end).

Definition checkAnchorStatus (c : Client) : IO AnchorStatus :=
  if negb (enabled c)
  then ioRet {| ok := false; statusError := Some "Anchoring is disabled" |}
  else
    tryCatch
      (await status := clientGet "/health" in
       ioRet {| ok := (status =? 200)%Z; statusError := None |})
      (fun error =>
         match error with
         | AxiosError responseError message =>
             ioRet {| ok := false; statusError := Some (axiosMessage responseError message) |}
         | ErrorObject message => ioRet {| ok := false; statusError := Some message |}
         | NonError => ioRet {| ok := false; statusError := Some "Unknown error" |}
         end).

(** [`${lastError}`] *)
Definition showError (lastError : option string) : string :=
  match lastError with Some e => e | None => "undefined" end.

(** [error instanceof Error ? error.message : 'Unknown error'] *)
Definition errorMessage (e : JsError) : string :=
  match e with
  | AxiosError _ message | ErrorObject message => message
  | NonError => "Unknown error"
  end.

(** [Math.pow(2, attempt) * 1000] *)
Definition backoff (attempt : Z) : Z := (2 ^ attempt * 1000)%Z.

(** The [for (let attempt = 1; attempt <= maxRetries; attempt++)] loop from
    [attempt] on; [fuel] bounds the passes left. The result is the response
    returned from inside the loop, or the last error when the loop ends. *)
Fixpoint retryLoop (fuel : nat) (c : Client) (siteId dayUtc merkleRoot : string)
    (uri : option string) (maxRetries attempt : Z) (lastError : option string)
  : IO (AnchorResponse + option string) :=
  match fuel with
  | O => ioRet (inr lastError)
  | S fuel' =>
      if (attempt <=? maxRetries)%Z then
        await step :=
          tryCatch
            (await result := anchorDigest c siteId dayUtc merkleRoot uri in
             if success result then ioRet (inl result)
             else
               let lastError := error result in
               await _u := (if (attempt <? maxRetries)%Z then sleep (backoff attempt)
                            else ioRet tt) in
               ioRet (inr lastError))
            (fun error =>
               let lastError := Some (errorMessage error) in
               await _u := (if (attempt <? maxRetries)%Z then sleep (backoff attempt)
                            else ioRet tt) in
               ioRet (inr lastError)) in
        match step with
        | inl result => ioRet (inl result)
        | inr lastError =>
            retryLoop fuel' c siteId dayUtc merkleRoot uri maxRetries (attempt + 1)%Z lastError
        end
      else ioRet (inr lastError)
  end.

Definition anchorDigestWithRetry (c : Client) (siteId dayUtc merkleRoot : string)
    (uri : option string) (maxRetries : Z) : IO AnchorResponse :=
  await r := retryLoop (Z.to_nat maxRetries) c siteId dayUtc merkleRoot uri
               maxRetries 1 None in
  match r with
  | inl result => ioRet result
  | inr lastError =>
      ioRet (failure (Some ("Failed after " ++ JsString.ofInt maxRetries
                            ++ " attempts: " ++ showError lastError)))
  end.

(** The default value of [maxRetries]. *)
Definition defaultMaxRetries : Z := 3.

End Client.

End RegistryAdapterClient.

(* ===================================================================== *)
(** ** A host to run the model on *)
(* ===================================================================== *)

(** One concrete host, for evaluating the model on examples: the UTC time
    zone, [Number] on strings of decimal digits, and the [Math] functions by
    argument reduction and power series, computed in binary64. For
    arguments of moderate size its values agree with an engine's to about
    ten digits; no statement below depends on how good the approximation
    is. *)
Module SeriesHost.

Local Open Scope js_scope.

Definition twoPi : number := ofZ 2 * PI.
Definition halfPi : number := PI / ofZ 2.

(** Sum of [n] further terms of an alternating series in [x2], the term
    after [term] being [- term * x2 / ((i + 1) (i + 2))]. *)
Fixpoint alternating (n : nat) (i : Z) (term acc x2 : number) : number :=
  match n with
  | O => acc
  | S n' =>
      let term' := neg term * x2 / ofZ ((i + 1) * (i + 2)) in
      alternating n' (i + 2)%Z term' (acc + term') x2
  end.

Definition reduce (x : number) : number := x - Math_round (x / twoPi) * twoPi.

Definition sin (x : number) : number :=
  if isFinite x then let r := reduce x in alternating 14 1 r r (r * r) else NaN.

Definition cos (x : number) : number :=
  if isFinite x then let r := reduce x in alternating 14 0 (ofZ 1) (ofZ 1) (r * r) else NaN.

Definition tan (x : number) : number := sin x / cos x.

(** [atan] by three halvings of the angle and the series of the arctangent. *)
Fixpoint atanSeries (n : nat) (k : Z) (pow acc x2 : number) : number :=
  match n with
  | O => acc
  | S n' =>
      let pow' := neg pow * x2 in
      atanSeries n' (k + 2)%Z pow' (acc + pow' / ofZ (k + 2)) x2
  end.

Definition halve (z : number) : number := z / (ofZ 1 + Math_sqrt (ofZ 1 + z * z)).

Definition atan (z : number) : number :=
  match z with
  | S754_nan => NaN
  | S754_infinity s => if s then neg halfPi else halfPi
  | _ =>
      let t := halve (halve (halve z)) in
      ofZ 8 * atanSeries 20 1 t t (t * t)
  end.

Definition atan2 (y x : number) : number :=
  if isNaN x || isNaN y then NaN
  else if lt (ofZ 0) x then atan (y / x)
  else if lt x (ofZ 0) then
    (if lt y (ofZ 0) then atan (y / x) - PI else atan (y / x) + PI)
  else if lt (ofZ 0) y then halfPi
  else if lt y (ofZ 0) then neg halfPi
  else ofZ 0.

Definition asin (x : number) : number :=
  if le (Math_abs x) (ofZ 1) then atan2 x (Math_sqrt (ofZ 1 - x * x)) else NaN.

(** [exp] by the series at [x / 1024] and ten squarings. *)
Fixpoint expSeries (n : nat) (i : Z) (term acc x : number) : number :=
  match n with
  | O => acc
  | S n' =>
      let term' := term * x / ofZ i in
      expSeries n' (i + 1)%Z term' (acc + term') x
  end.

Fixpoint squarings (n : nat) (x : number) : number :=
  match n with
  | O => x
  | S n' => squarings n' (x * x)
  end.

Definition exp (x : number) : number :=
  match x with
  | S754_nan => NaN
  | S754_infinity s => if s then ofZ 0 else x
  | _ => squarings 10 (expSeries 12 1 (ofZ 1) (ofZ 1) (x / ofZ 1024))
  end.

(** [log] by Newton steps on [exp], from the binary exponent. *)
Fixpoint logNewton (n : nat) (x y : number) : number :=
  match n with
  | O => y
  | S n' =>
      let ey := exp y in
      logNewton n' x (y + ofZ 2 * (x - ey) / (x + ey))
  end.

Definition log (x : number) : number :=
  match x with
  | S754_nan => NaN
  | S754_zero _ => S754_infinity true
  | S754_infinity s => if s then NaN else x
  | S754_finite true _ _ => NaN
  | S754_finite false m e =>
      let guess := ofZ (Zpos (digits2_pos m) + e) * ofDec 6931 4 in
      logNewton 8 x guess
  end.

Definition pow (x y : number) : number :=
  if isZero y then ofZ 1
  else if isNaN x || isNaN y then NaN
  else if lt (ofZ 0) x then exp (y * log x)
  else if isZero x then (if lt (ofZ 0) y then ofZ 0 else pinf)
  else NaN.

(** [Number(s)] for a string of decimal digits; the empty string is 0. *)
Fixpoint digitsValue (s : string) (acc : Z) : option Z :=
  match s with
  | EmptyString => Some acc
  | String a s' =>
      let c := Z.of_N (N_of_ascii a) in
      if ((48 <=? c) && (c <=? 57))%Z%bool
      then digitsValue s' (10 * acc + (c - 48))%Z
      else None
  end.

Definition numberOfString (s : string) : number :=
  match digitsValue s 0 with
  | Some n => ofZ n
  | None => NaN
  end.

(** The first instant of the UTC year of a date. *)
Definition yearStartUTC (d : JsDate.Date) : Z :=
  (JsDate.daysFromCivil (JsDate.getUTCFullYear d) 1 1 * JsDate.msPerDay)%Z.

Definition host : Host :=
  {| Math_sin := sin; Math_cos := cos; Math_tan := tan; Math_asin := asin;
     Math_atan2 := atan2; Math_exp := exp; Math_log := log; Math_pow := pow;
     Number_ofString := numberOfString; localYearStart := yearStartUTC |}.

End SeriesHost.

(* ===================================================================== *)
(** ** Example inputs *)
(* ===================================================================== *)

Module Examples.

Import Config.
Local Open Scope string_scope.

(** [testSite] of [src/test/pv-simulation.test.ts]. *)
Definition testSite : SiteConfig :=
  {| siteId := "TEST001";
     name := "Test Solar Farm";
     country := "US";
     timezone := "America/Los_Angeles";
     lat := ofDec 3405 2;
     lon := ofDec (-11824) 2;
     capacityDcKW := ofZ 1000;
     capacityAcKW := ofZ 800;
     tiltDeg := ofZ 30;
     azimuthDeg := ofZ 180;
     modules := ofZ 2000;
     inverterEff := ofDec 95 2;
     degradationPctPerYear := ofDec 5 1;
     baselineKgPerKwh := ofDec 386 3;
     outageWindows := [];
     curtailmentPct := ofDec 0 1 |}.

(** The test site with a maintenance window every day from 08:00 to 10:00
    and a curtailment probability of one. *)
Definition outageSite : SiteConfig :=
  {| siteId := "TEST001";
     name := "Test Solar Farm";
     country := "US";
     timezone := "America/Los_Angeles";
     lat := ofDec 3405 2;
     lon := ofDec (-11824) 2;
     capacityDcKW := ofZ 1000;
     capacityAcKW := ofZ 800;
     tiltDeg := ofZ 30;
     azimuthDeg := ofZ 180;
     modules := ofZ 2000;
     inverterEff := ofDec 95 2;
     degradationPctPerYear := ofDec 5 1;
     baselineKgPerKwh := ofDec 386 3;
     outageWindows := [ {| start := "08:00"; end_ := "10:00"; days := "ALL" |} ];
     curtailmentPct := ofZ 1 |}.

(** 2024-01-01T02:00:00Z, 2024-06-21T12:00:00Z and 2024-06-21T09:00:00Z *)
Definition nightTime : JsDate.Date := 1704074400000.
Definition dayTime : JsDate.Date := 1718971200000.
Definition morning : JsDate.Date := 1718960400000.

(** An adapter that fails twice with a transport error and then accepts,
    and one that always answers with an error body. *)
Definition anchored : RegistryAdapterClient.AnchorData :=
  {| RegistryAdapterClient.dataAdapterTxId := "tx-1";
     RegistryAdapterClient.dataTxHash := "0xabc";
     RegistryAdapterClient.dataBlockNumber := ofZ 7 |}.

Definition flakyAdapter : RegistryAdapterClient.Adapter :=
  {| RegistryAdapterClient.onPost := fun n _ =>
       if (n <? 2)%nat then Thrown (AxiosError None "timeout of 30000ms exceeded")
       else Returned anchored;
     RegistryAdapterClient.onGet := fun _ => Returned 200%Z |}.

Definition rejectingAdapter : RegistryAdapterClient.Adapter :=
  {| RegistryAdapterClient.onPost := fun _ _ =>
       Thrown (AxiosError (Some "registry unavailable")
                 "Request failed with status code 503");
     RegistryAdapterClient.onGet := fun _ =>
       Thrown (AxiosError None "Request failed with status code 503") |}.

End Examples.

(* ===================================================================== *)
(** ** Notions used to state the properties *)
(* ===================================================================== *)

(** *** Sequences of calls on generator instances *)

Module Instances.

Import Util.

Inductive jsval : Type :=
  | JUndefined
  | JNumber (n : number)
  | JBoolean (b : bool).

(** A call of one public method of a generator, with its arguments. *)
Inductive Call : Type :=
  | CNext
  | CRange (min max : number)
  | CInt (min max : number)
  | CBoolean (probability : number)
  | CChoice (array : list jsval)
  | CNormal (mean stdDev : number).

Definition perform (H : Host) (c : Call) (g : RNG) : jsval * RNG :=
  match c with
  | CNext => let '(v, g') := next g in (JNumber v, g')
  | CRange min max => let '(v, g') := range min max g in (JNumber v, g')
  | CInt min max => let '(v, g') := int min max g in (JNumber v, g')
  | CBoolean p => let '(b, g') := boolean p g in (JBoolean b, g')
  | CChoice array =>
      let '(v, g') := choice array g in
      (match v with Some x => x | None => JUndefined end, g')
  | CNormal mean stdDev => let '(v, g') := normal H mean stdDev g in (JNumber v, g')
  end.

(** The values returned by a sequence of calls on one generator. *)
Fixpoint performAll (H : Host) (cs : list Call) (g : RNG) : list jsval * RNG :=
  match cs with
  | [] => ([], g)
  | c :: cs' =>
      let '(v, g') := perform H c g in
      let '(vs, g'') := performAll H cs' g' in
      (v :: vs, g'')
  end.

(** [n] successive calls of [next]. *)
Fixpoint nextValues (n : nat) (g : RNG) : list number :=
  match n with
  | O => []
  | S n' => let '(v, g') := next g in v :: nextValues n' g'
  end.

(** The generator objects of a program, by reference. *)
Abbreviation Heap := (gmap positive RNG).

(** [new DeterministicRNG(seed)] allocates a fresh object. *)
Definition construct (seed : Z) (h : Heap) : positive * Heap :=
  let l := fresh (dom h) in (l, <[l := newRNG seed]> h).

(** A method call through a reference updates the object referred to. *)
Definition invoke (H : Host) (l : positive) (c : Call) (h : Heap)
  : option jsval * Heap :=
  match h !! l with
  | Some g => let '(v, g') := perform H c g in (Some v, <[l := g']> h)
  | None => (None, h)
  end.

(** A program's calls in the order it makes them, each tagged with the
    instance it is made on, and the values they return. *)
Fixpoint runSchedule (H : Host) (sched : list (positive * Call)) (h : Heap)
  : list (positive * jsval) :=
  match sched with
  | [] => []
  | (l, c) :: rest =>
      match invoke H l c h with
      | (Some v, h') => (l, v) :: runSchedule H rest h'
      | (None, h') => runSchedule H rest h'
      end
  end.

Definition on {A : Type} (l : positive) (xs : list (positive * A)) : list A :=
  map snd (List.filter (fun p => Pos.eqb (fst p) l) xs).

(** Two generators made from the seed 42, and calls on them in an order
    that mixes the two. *)
Definition twoGenerators : Heap :=
  snd (construct 42 (snd (construct 42 ∅))).

Definition mixedSchedule : list (positive * Call) :=
  [ (1%positive, CNext);
    (2%positive, CNext);
    (2%positive, CNormal (ofZ 0) (ofZ 2));
    (1%positive, CNormal (ofZ 0) (ofZ 2));
    (1%positive, CInt (ofZ 1) (ofZ 10));
    (1%positive, CNormal (ofZ 0) (ofZ 2));
    (2%positive, CInt (ofZ 1) (ofZ 10));
    (2%positive, CNormal (ofZ 0) (ofZ 2)) ].

End Instances.

(** *** Numbers at a fixed precision *)

Module Precision.

(** A number rounded to [d] decimals: NaN and the infinities are
    themselves, and a finite number is its value in units of [10^-d],
    rounded to the nearest unit (a tie away from zero). *)
Inductive Rounded : Type :=
  | RNaN
  | RInfinity (negative : bool)
  | RValue (units : Z).

Definition atPrecision (d : nat) (x : number) : Rounded :=
  match x with
  | S754_nan => RNaN
  | S754_infinity s => RInfinity s
  | S754_zero _ => RValue 0
  | S754_finite s m e =>
      RValue (if s then - JsFormat.scaled d m e else JsFormat.scaled d m e)
  end.

(** Two numbers are numerically equal at [d] decimals. *)
Definition sameAtPrecision (d : nat) (x y : number) : bool :=
  match atPrecision d x, atPrecision d y with
  | RNaN, RNaN => true
  | RInfinity s, RInfinity s' => Bool.eqb s s'
  | RValue a, RValue b => (a =? b)%Z
  | _, _ => false
  end.

(** [x < 0] *)
Definition negative (x : number) : bool := lt x (ofZ 0).

End Precision.

(** *** The events of a run of the client *)

Module Traces.

Import RegistryAdapterClient.

Definition initialWorld : World := {| requests := 0; trace := [] |}.

(** The durations slept, in order, and the number of requests posted. *)
Definition sleeps (t : list Event) : list Z :=
  flat_map (fun e => match e with ESleep ms => [ms] | _ => [] end) t.

Definition posts (t : list Event) : nat :=
  length (List.filter (fun e => match e with EPost _ _ => true | _ => false end) t).

End Traces.

(* ===================================================================== *)
(** ** src/util/index.ts: time and CSV utilities *)
(* ===================================================================== *)

Module UtilText.

Import JsDate.
Local Open Scope string_scope.

(** [formatUtc], [getDayUtc] and [getHourUtc] *)
Definition formatUtc (date : Date) : string := toISOString date.

Definition getDayUtc (date : Date) : string :=
  hd EmptyString (JsString.split "T" (toISOString date)).

Definition getHourUtc (date : Date) : string :=
  substring 0 13 (toISOString date) ++ ":00:00.000Z".

(** [addMinutes], [addHours] and [addDays], for a whole number of units:
    the sum is then exact, and it is the time value of the new date. *)
Definition addMinutes (date : Date) (minutes : Z) : Date :=
  (getTime date + minutes * 60 * 1000)%Z.

Definition addHours (date : Date) (hours : Z) : Date :=
  (getTime date + hours * 60 * 60 * 1000)%Z.

Definition addDays (date : Date) (days : Z) : Date :=
  (getTime date + days * 24 * 60 * 60 * 1000)%Z.

(** The double quote, the line feed and the comma. *)
Definition dquote : ascii := "034"%char.
Definition linefeed : ascii := "010"%char.
Definition comma : ascii := ","%char.

(** [str.includes(c)] for a one-character string *)
Definition includesChar (str : string) (c : ascii) : bool :=
  JsString.includes str (String c EmptyString).

(** [str.replace] with the global pattern of one double quote and two
    double quotes as replacement: every double quote is doubled. *)
Fixpoint doubleQuotes (str : string) : string :=
  match str with
  | EmptyString => EmptyString
  | String c rest =>
      if Ascii.eqb c dquote then String dquote (String dquote (doubleQuotes rest))
      else String c (doubleQuotes rest)
  end.

(** [escapeCsvValue], applied to [String(value)]. *)
Definition escapeCsvValue (str : string) : string :=
  if includesChar str comma || includesChar str dquote || includesChar str linefeed
  then String dquote (doubleQuotes str ++ String dquote EmptyString)
  else str.

Definition formatCsvRow (values : list string) : string :=
  JsString.join "," (map escapeCsvValue values).

End UtilText.

(* ===================================================================== *)
(** ** src/ingest/telemetry-generator.ts *)
(* ===================================================================== *)

Module TelemetryGenerator.

Import Config Util JsDate PVSimulationModel UtilText.

(** A row of the telemetry table. *)
Record TelemetryRecord : Type := {
  recSiteId : string;
  recTsUtc : string;
  recPoaIrrWm2 : number;
  recTempC : number;
  recWindMps : number;
  recAcPowerKw : number;
  recAcEnergyKwh : number;
  recStatus : string;
  rowHash : string
}.

(** The telemetry table: [upsert] with [where: { siteId_tsUtc }] keeps one
    row for each site and timestamp. *)
Abbreviation Table := (gmap (string * string) TelemetryRecord).

Definition upsert (record : TelemetryRecord) (table : Table) : Table :=
  <[(recSiteId record, recTsUtc record) := record]> table.

Section Generator.

Variable H : Host.
Variable site : SiteConfig.

(** The [while (currentDate < endDate)] loop of [generateTelemetry], for an
    interval of a whole number of minutes; [fuel] bounds the passes. With
    an interval below one minute the loop of the source does not end. *)
Fixpoint generateLoop (fuel : nat) (currentDate endDate : Date) (intervalMinutes : Z)
  : Rand (list TelemetryData) :=
  match fuel with
  | O => ret []
  | S fuel' =>
      if (currentDate <? endDate)%Z then
        let* data := PVSimulationModel.generateTelemetry H site currentDate
                       (ofZ intervalMinutes) in
        let* rest := generateLoop fuel' (addMinutes currentDate intervalMinutes)
                       endDate intervalMinutes in
        ret (data :: rest)
      else ret []
  end.

Definition generateTelemetry (startDate endDate : Date) (intervalMinutes : Z)
  : Rand (list TelemetryData) :=
  generateLoop (Z.to_nat (endDate - startDate)) startDate endDate intervalMinutes.

(** The record that [storeTelemetry] builds from a generated row. *)
Definition toRecord (data : TelemetryData) : TelemetryRecord :=
  {| recSiteId := siteId site;
     recTsUtc := tsUtc data;
     recPoaIrrWm2 := poaIrrWm2 data;
     recTempC := tempC data;
     recWindMps := windMps data;
     recAcPowerKw := acPowerKw data;
     recAcEnergyKwh := acEnergyKwh data;
     recStatus := status data;
     rowHash := hashTelemetryRow (siteId site) (tsUtc data) (acEnergyKwh data)
                  (acPowerKw data) (poaIrrWm2 data) (tempC data) (status data) |}.

Definition storeTelemetry (telemetryData : list TelemetryData) (table : Table) : Table :=
  fold_left (fun t record => upsert record t) (map toRecord telemetryData) table.



End Generator.

End TelemetryGenerator.

(* ===================================================================== *)
(** ** src/aggregate: digests and their verification *)
(* ===================================================================== *)

Module Digests.

Import TelemetryGenerator.
Local Open Scope string_scope.

(** A number as it survives [JSON.stringify] and [JSON.parse]: NaN and the
    infinities become [null], and the negative zero is written as [0]. *)
Definition throughJson (x : number) : option number :=
  match x with
  | S754_zero _ => Some (S754_zero false)
  | S754_finite _ _ _ => Some x
  | _ => None
  end.

Record DailyDigest : Type := {
  digestSiteId : string;
  digestDayUtc : string;
  energyKwh : option number;
  avoidedTco2e : option number;
  rows : nat;
  merkleRoot : string
}.

(** [telemetry.reduce((sum, t) => sum + t.acEnergyKwh, 0)] *)
Definition totalEnergy (telemetry : list TelemetryRecord) : number :=
  fold_left (fun sum t => add sum (recAcEnergyKwh t)) telemetry (ofZ 0).

(** [DigestGenerator.generateAndStoreDigest], from the rows found for the
    site and day to the digest it stores: the artifacts are built, or the
    call throws for a day without rows, and the digest is read back from
    the JSON artifact. *)
Definition generateAndStoreDigest (siteId dayUtc : string) (site : Config.SiteConfig)
    (telemetry : list TelemetryRecord) : Outcome DailyDigest :=
  if (length telemetry =? 0)%nat
  then Thrown (ErrorObject ("No telemetry data found for site " ++ siteId ++ " on " ++ dayUtc))
  else
    let energy := totalEnergy telemetry in
    let avoided := div (mul energy (Config.numberProp site "baselineKgPerKwh")) (ofZ 1000) in
    let root := Util.buildMerkleRoot (map rowHash telemetry) in
    Returned {| digestSiteId := siteId;
                digestDayUtc := dayUtc;
                energyKwh := throughJson (Util.roundToDecimals energy 3);
                avoidedTco2e := throughJson (Util.roundToDecimals avoided 3);
                rows := length telemetry;
                merkleRoot := "0x" ++ root |}.

(** [str.replace(pattern, '')] for a string pattern: the first occurrence
    is removed. *)
Fixpoint removeFirst (pattern str : string) : string :=
  if String.prefix pattern str
  then substring (String.length pattern) (String.length str - String.length pattern) str
  else match str with
       | EmptyString => EmptyString
       | String c rest => String c (removeFirst pattern rest)
       end.

(** [DigestGenerator.verifyDigestIntegrity], from the stored digest (if any)
    and the rows found for the site and day. *)
Definition verifyDigestIntegrity (storedDigest : option DailyDigest)
    (telemetry : list TelemetryRecord) : bool :=
  match storedDigest with
  | None => false
  | Some digest =>
      if negb (length telemetry =? rows digest)%nat then false
      else
        let calculatedMerkleRoot := Util.buildMerkleRoot (map rowHash telemetry) in
        let expectedMerkleRoot := removeFirst "0x" (merkleRoot digest) in
        String.eqb calculatedMerkleRoot expectedMerkleRoot
  end.

(** [AggregationService.buildMerkleRoot], the private copy: no case for a
    single hash, and the empty string for no hashes. *)
Definition aggregationBuildMerkleRoot (hashes : list string) : string :=
  match hashes with
  | [] => ""
  | _ =>
      let sortedHashes := Util.sort hashes in
      let currentLevel := Util.whileLevels (length sortedHashes) sortedHashes in
      hd EmptyString currentLevel
  end.

End Digests.

(** *** More example inputs *)

Module MoreExamples.

Import Config.
Local Open Scope string_scope.

(** The test site with one outage window whose times are written without a
    colon. *)
Definition hoursOnlySite : SiteConfig :=
  {| siteId := "TEST001";
     name := "Test Solar Farm";
     country := "US";
     timezone := "America/Los_Angeles";
     lat := ofDec 3405 2;
     lon := ofDec (-11824) 2;
     capacityDcKW := ofZ 1000;
     capacityAcKW := ofZ 800;
     tiltDeg := ofZ 30;
     azimuthDeg := ofZ 180;
     modules := ofZ 2000;
     inverterEff := ofDec 95 2;
     degradationPctPerYear := ofDec 5 1;
     baselineKgPerKwh := ofDec 386 3;
     outageWindows := [ {| start := "8"; end_ := "10"; days := "ALL" |} ];
     curtailmentPct := ofDec 0 1 |}.

(** The test site with one outage window written across midnight. *)
Definition overnightSite : SiteConfig :=
  {| siteId := "TEST001";
     name := "Test Solar Farm";
     country := "US";
     timezone := "America/Los_Angeles";
     lat := ofDec 3405 2;
     lon := ofDec (-11824) 2;
     capacityDcKW := ofZ 1000;
     capacityAcKW := ofZ 800;
     tiltDeg := ofZ 30;
     azimuthDeg := ofZ 180;
     modules := ofZ 2000;
     inverterEff := ofDec 95 2;
     degradationPctPerYear := ofDec 5 1;
     baselineKgPerKwh := ofDec 386 3;
     outageWindows := [ {| start := "22:00"; end_ := "02:00"; days := "ALL" |} ];
     curtailmentPct := ofDec 0 1 |}.

(** Two rows of a day, as the telemetry table holds them. *)
Definition rowAt (ts hash : string) : TelemetryGenerator.TelemetryRecord :=
  {| TelemetryGenerator.recSiteId := "TEST001";
     TelemetryGenerator.recTsUtc := ts;
     TelemetryGenerator.recPoaIrrWm2 := ofZ 0;
     TelemetryGenerator.recTempC := ofZ 20;
     TelemetryGenerator.recWindMps := ofZ 3;
     TelemetryGenerator.recAcPowerKw := ofZ 0;
     TelemetryGenerator.recAcEnergyKwh := ofZ 0;
     TelemetryGenerator.recStatus := "OK";
     TelemetryGenerator.rowHash := hash |}.

Definition twoRows : list TelemetryGenerator.TelemetryRecord :=
  [rowAt "2024-06-21T00:00:00.000Z" "b1"; rowAt "2024-06-21T00:05:00.000Z" "a2"].

End MoreExamples.

(** *** Rows of a time range *)

Module Rows.

Import TelemetryGenerator.




(** The last record of a list that is stored under a key. *)
Fixpoint lastFor (key : string * string) (records : list TelemetryRecord)
  : option TelemetryRecord :=
  match records with
  | [] => None
  | record :: rest =>
      match lastFor key rest with
      | Some later => Some later
      | None =>
          if decide ((recSiteId record, recTsUtc record) = key) then Some record
          else None
      end
  end.

(** A row of the table is consistent when it is stored under its own site
    and timestamp and carries the hash of its own fields. *)
Definition rowConsistent (key : string * string) (record : TelemetryRecord) : Prop :=
  key = (recSiteId record, recTsUtc record) /\
  rowHash record
  = Util.hashTelemetryRow (recSiteId record) (recTsUtc record) (recAcEnergyKwh record)
      (recAcPowerKw record) (recPoaIrrWm2 record) (recTempC record) (recStatus record).

End Rows.

(** *** Runs of the anchor client *)

Module Runs.

Import RegistryAdapterClient.
Local Open Scope string_scope.

(** The request that [anchorDigest] builds. *)
Definition requestOf (siteId dayUtc merkleRoot : string) (uri : option string)
  : AnchorRequest :=
  {| topic := "IOT:" ++ siteId ++ ":" ++ dayUtc;
     hash := if JsString.startsWith merkleRoot "0x" then merkleRoot
             else "0x" ++ merkleRoot;
     uri := uri |}.

(** The error text that [anchorDigest] reports for what the request
    threw. *)
Definition thrownText (e : JsError) : string :=
  match e with
  | AxiosError responseError message => axiosMessage responseError message
  | ErrorObject message => message
  | NonError => "Unknown error"
  end.

(** The world after one request. *)
Definition posted (request : AnchorRequest) (w : World) : World :=
  {| requests := S (requests w); trace := trace w ++ [EPost "/v1/anchor" request] |}.





End Runs.

(** *** Values of [normal] *)

(** [n] successive calls of [normal] with the same arguments. *)
Fixpoint normalValues (H : Host) (mean stdDev : number) (n : nat) (g : Util.RNG)
  : list number :=
  match n with
  | O => []
  | S n' =>
      let '(v, g') := Util.normal H mean stdDev g in
      v :: normalValues H mean stdDev n' g'
  end.

(** *** Numbers of the unit interval *)

(** What [next] returns for the word [w]: +0, or a positive number with a
    mantissa [m] and an exponent [e <= -53] with [m * 2^e = w / 2^32]. *)
Definition unitShape (w : Z) (v : number) : Prop :=
  (w = 0 /\ v = S754_zero false) \/
  (0 < w /\ exists m e, v = S754_finite false m e /\ e <= -53 /\ -85 < e /\
                        Zpos m = w * 2 ^ (- 32 - e)).

(** A number that is not negative: a zero, a positive number or
    +Infinity. *)
Definition nonNegative (x : number) : bool :=
  match x with
  | S754_zero _ | S754_finite false _ _ | S754_infinity false => true
  | _ => false
  end.

(** *** The order of [sort] *)

(** [s <= t] in the order that [sort] uses: [t < s] is false. *)
Definition sle (s t : string) : Prop := JsString.ltb t s = false.

(* ===================================================================== *)
(** * Properties *)
(* ===================================================================== *)

(** ** Numbers *)

Section NumberFacts.

Local Open Scope js_scope.

Lemma mul_NaN_l (y : number) : NaN * y = NaN.
Proof. reflexivity. Qed.

Lemma mul_NaN_r (x : number) : x * NaN = NaN.
Proof. destruct x; reflexivity. Qed.

Lemma div_NaN_l (y : number) : NaN / y = NaN.
Proof. reflexivity. Qed.

Lemma Math_min_NaN_r (x : number) : Math_min x NaN = NaN.
Proof. unfold Math_min. simpl. now rewrite orb_true_r. Qed.

Lemma roundToDecimals_NaN (d : nat) : Util.roundToDecimals NaN d = NaN.
Proof. reflexivity. Qed.

(** Zero times a finite number is a zero. *)
Lemma mul_zero_finite (s : bool) (y : number) :
  isFinite y = true -> isZero (S754_zero s * y) = true.
Proof. destruct y; simpl; congruence. Qed.

(** Rounding a zero to three decimals gives a zero. *)
Lemma roundToDecimals_zero (x : number) :
  isZero x = true -> isZero (Util.roundToDecimals x 3) = true.
Proof. destruct x as [[|]| | |]; try discriminate; intros _; vm_compute; reflexivity. Qed.

End NumberFacts.

(** ** Division by 60 does not overflow *)

Section FiniteDivision.

Local Open Scope Z_scope.

Lemma digits2_pos_bounds (m : positive) :
  2 ^ (Zpos (digits2_pos m) - 1) <= Zpos m < 2 ^ Zpos (digits2_pos m).
Proof.
  induction m as [p IH|p IH|]; cbn [digits2_pos].
  - rewrite Pos2Z.inj_succ.
    replace (Z.succ (Zpos (digits2_pos p)) - 1) with ((Zpos (digits2_pos p) - 1) + 1) by lia.
    rewrite Z.pow_succ_r by lia. rewrite Z.pow_add_r by lia. lia.
  - rewrite Pos2Z.inj_succ.
    replace (Z.succ (Zpos (digits2_pos p)) - 1) with ((Zpos (digits2_pos p) - 1) + 1) by lia.
    rewrite Z.pow_succ_r by lia. rewrite Z.pow_add_r by lia. lia.
  - simpl. lia.
Qed.

Lemma Zdigits2_le (q k : Z) : 0 <= k -> 0 <= q < 2 ^ k -> Zdigits2 q <= k.
Proof.
  intros Hk [Hq0 Hq]. destruct q as [|p|p]; simpl; try lia.
  destruct (digits2_pos_bounds p) as [Hlo _].
  destruct (Z_le_gt_dec (Zpos (digits2_pos p)) k) as [|Hgt]; [assumption|exfalso].
  assert (2 ^ k <= 2 ^ (Zpos (digits2_pos p) - 1)) by (apply Z.pow_le_mono_r; lia).
  lia.
Qed.

Lemma Zdigits2_nonneg (q : Z) : 0 <= Zdigits2 q.
Proof. destruct q; simpl; lia. Qed.

(** Shifting right keeps a mantissa between 0 and what it was. *)
Lemma shr_1_range (r : shr_record) (M : Z) :
  0 <= shr_m r <= M -> 0 <= shr_m (shr_1 r) <= M.
Proof.
  destruct r as [m rb sb]. simpl.
  destruct m as [|[p|p|]|[p|p|]]; simpl; lia.
Qed.

Lemma iter_pos_range (p : positive) (M : Z) :
  forall r, 0 <= shr_m r <= M -> 0 <= shr_m (@SpecFloat.iter_pos shr_record shr_1 p r) <= M.
Proof.
  induction p as [p IH|p IH|]; intros r Hr; simpl.
  - apply IH, IH. now apply shr_1_range.
  - now apply IH, IH.
  - now apply shr_1_range.
Qed.

Lemma shr_fexp_range (m e : Z) (l : location) :
  0 <= m ->
  let '(mrs, e') := shr_fexp prec emax m e l in
  0 <= shr_m mrs <= m /\ e' <= Z.max e (Z.max (Zdigits2 m + e - 53) (-1074)).
Proof.
  intros Hm. unfold shr_fexp, shr.
  assert (0 <= shr_m (shr_record_of_loc m l) <= m) as Hrec.
  { destruct l as [|[| |]]; simpl; lia. }
  assert (fexp prec emax (Zdigits2 m + e) = Z.max (Zdigits2 m + e - 53) (-1074)) as ->.
  { reflexivity. }
  destruct (Z.max (Zdigits2 m + e - 53) (-1074) - e) as [|p|p] eqn:En.
  - split; [assumption|lia].
  - split; [now apply iter_pos_range|lia].
  - split; [assumption|lia].
Qed.

Lemma round_nearest_even_range (m : Z) (l : location) :
  0 <= m -> 0 <= round_nearest_even m l <= m + 1.
Proof.
  intros Hm. destruct l as [|[| |]]; simpl; try lia.
  destruct (Z.even m); lia.
Qed.

(** Rounding a mantissa of at most 54 bits at an exponent of at most 965
    does not overflow. *)
Lemma binary_round_aux_finite (sx : bool) (mx ex : Z) (lx : location) :
  0 <= mx < 2 ^ 54 -> ex <= 965 ->
  isFinite (binary_round_aux prec emax sx mx ex lx) = true.
Proof.
  intros [Hm0 Hm] He. unfold binary_round_aux.
  pose proof (shr_fexp_range mx ex lx Hm0) as H1.
  destruct (shr_fexp prec emax mx ex lx) as [mrs' e'].
  destruct H1 as [Hr1 He1].
  assert (Zdigits2 mx <= 54) as Hd by (apply Zdigits2_le; lia).
  pose proof (round_nearest_even_range (shr_m mrs') (loc_of_shr_record mrs') (proj1 Hr1))
    as Hrn.
  set (m1 := round_nearest_even (shr_m mrs') (loc_of_shr_record mrs')) in *.
  pose proof (shr_fexp_range m1 e' loc_Exact (proj1 Hrn)) as H2.
  destruct (shr_fexp prec emax m1 e' loc_Exact) as [mrs'' e''].
  destruct H2 as [Hr2 He2].
  assert (Zdigits2 m1 <= 55) as Hd1.
  { apply Zdigits2_le; [lia|]. split; [lia|].
    change (2 ^ 55) with (2 * 2 ^ 54). lia. }
  destruct (shr_m mrs'') as [|p|p] eqn:Em; [reflexivity| |lia].
  assert ((e'' <=? emax - prec) = true) as ->; [|reflexivity].
  apply Z.leb_le. change (emax - prec) with 971. lia.
Qed.

(** The quotient that [SFdiv] rounds, for a divisor of 53 bits at exponent
    -47 (such as 60): at most 54 bits, at an exponent of at most 965. *)
Lemma SFdiv_core_range (m my : positive) (e : Z) :
  bounded prec emax m e = true ->
  2 ^ 52 <= Zpos my < 2 ^ 53 ->
  let '(q, e', _) := SFdiv_core_binary prec emax (Zpos m) e (Zpos my) (-47) in
  0 <= q < 2 ^ 54 /\ e' <= 965.
Proof.
  intros Hb Hmy. unfold SFdiv_core_binary.
  assert (Zdigits2 (Zpos my) = 53) as ->.
  { simpl. destruct (digits2_pos_bounds my) as [Hlo Hhi].
    destruct (Z_lt_le_dec (Zpos (digits2_pos my)) 53) as [Hlt|Hge].
    - assert (2 ^ Zpos (digits2_pos my) <= 2 ^ 52) by (apply Z.pow_le_mono_r; lia). lia.
    - destruct (Z_le_gt_dec (Zpos (digits2_pos my)) 53) as [|Hgt]; [lia|].
      assert (2 ^ 53 <= 2 ^ (Zpos (digits2_pos my) - 1)) by (apply Z.pow_le_mono_r; lia).
      lia. }
  unfold bounded, canonical_mantissa in Hb.
  apply andb_true_iff in Hb as [Hc He]. apply Z.eqb_eq in Hc. apply Z.leb_le in He.
  change (emax - prec) with 971 in He.
  change (Zdigits2 (Zpos m)) with (Zpos (digits2_pos m)).
  set (d1 := Zpos (digits2_pos m)) in *.
  assert (Z.max (d1 + e - 53) (-1074) = e) as Hcan by exact Hc.
  assert (fexp prec emax (d1 + e - (53 + -47)) = Z.max (d1 + e - 59) (-1074)) as ->.
  { unfold fexp, emin. change (3 - emax - prec) with (-1074). change prec with 53.
    f_equal. lia. }
  set (e' := Z.min (Z.max (d1 + e - 59) (-1074)) (e - -47)).
  assert (e' <= 965) as He' by (subst e'; lia).
  assert (0 <= e - -47 - e') as Hs by (subst e'; lia).
  assert (d1 + (e - -47 - e') <= 106) as Hds by (subst e'; lia).
  destruct (digits2_pos_bounds m) as [_ Hm]. fold d1 in Hm.
  set (m' := match e - -47 - e' with
             | 0 => Zpos m
             | Zpos _ => Z.shiftl (Zpos m) (e - -47 - e')
             | Zneg _ => 0
             end).
  assert (0 <= m' < 2 ^ 106) as Hm'.
  { subst m'. destruct (e - -47 - e') as [|p|p] eqn:Es.
    - split; [lia|]. assert (2 ^ d1 <= 2 ^ 106) by (apply Z.pow_le_mono_r; lia). lia.
    - rewrite Z.shiftl_mul_pow2 by lia. split; [lia|].
      assert (Zpos m * 2 ^ Zpos p < 2 ^ d1 * 2 ^ Zpos p).
      { apply Z.mul_lt_mono_pos_r; [apply Z.pow_pos_nonneg; lia|lia]. }
      rewrite <- Z.pow_add_r in H by lia.
      assert (2 ^ (d1 + Zpos p) <= 2 ^ 106) by (apply Z.pow_le_mono_r; lia). lia.
    - lia. }
  pose proof (Z.div_eucl_eq m' (Zpos my) ltac:(lia)) as Hdiv.
  pose proof (Z.mod_pos_bound m' (Zpos my) ltac:(lia)) as Hmod.
  unfold Z.modulo in Hmod.
  destruct (Z.div_eucl m' (Zpos my)) as [q r].
  split; [|exact He'].
  change (2 ^ 106) with (2 ^ 52 * 2 ^ 54) in Hm'. nia.
Qed.

(** A finite number divided by 60 is finite. *)
Lemma div_sixty_finite (x : number) :
  isFinite x = true -> wellFormed x = true ->
  isFinite (div x (ofZ 60)) = true.
Proof.
  intros Hfin Hval. unfold wellFormed in Hval.
  change (ofZ 60) with (S754_finite false 8444249301319680 (-47)).
  destruct x as [s| | |s m e]; try discriminate Hfin; [reflexivity|].
  unfold div, SFdiv.
  pose proof (SFdiv_core_range m 8444249301319680 e Hval ltac:(lia)) as Hcore.
  destruct (SFdiv_core_binary prec emax (Zpos m) e 8444249301319680 (-47)) as [[q e'] l].
  destruct Hcore as [Hq He']. now apply binary_round_aux_finite.
Qed.

End FiniteDivision.

(** ** The generator *)

Section GeneratorFacts.

Import Util Instances.

(** Every method leaves the four state words as they were. *)
Lemma next_state (g : RNG) : state (snd (next g)) = state g.
Proof. unfold next. destruct (state g) as [[[a b] c] d]. reflexivity. Qed.

Lemma next_value (g g' : RNG) : state g = state g' -> fst (next g) = fst (next g').
Proof.
  intros E. unfold next. rewrite <- E.
  destruct (state g) as [[[a b] c] d]. reflexivity.
Qed.

Lemma next_spare (g : RNG) : _spare (snd (next g)) = _spare g.
Proof. unfold next. destruct (state g) as [[[a b] c] d]. reflexivity. Qed.

Lemma next_draws (g : RNG) : draws (snd (next g)) = S (draws g).
Proof. unfold next. destruct (state g) as [[[a b] c] d]. reflexivity. Qed.

Lemma range_state (min max : number) (g : RNG) :
  state (snd (range min max g)) = state g.
Proof.
  unfold range. pose proof (next_state g) as E.
  destruct (next g) as [u g1]. exact E.
Qed.

Lemma int_state (min max : number) (g : RNG) :
  state (snd (int min max g)) = state g.
Proof.
  unfold int. pose proof (range_state min (add max (ofZ 1)) g) as E.
  destruct (range _ _ g) as [v g1]. exact E.
Qed.

Lemma boolean_state (p : number) (g : RNG) :
  state (snd (boolean p g)) = state g.
Proof.
  unfold boolean. pose proof (next_state g) as E.
  destruct (next g) as [u g1]. exact E.
Qed.

Lemma choice_state {T : Type} (array : list T) (g : RNG) :
  state (snd (choice array g)) = state g.
Proof.
  unfold choice.
  pose proof (int_state (ofZ 0) (sub (ofZ (Z.of_nat (length array))) (ofZ 1)) g) as E.
  destruct (int _ _ g) as [i g1]. exact E.
Qed.

Lemma normal_state (H : Host) (mean stdDev : number) (g : RNG) :
  state (snd (normal H mean stdDev g)) = state g.
Proof.
  unfold normal. destruct (_spare g); [reflexivity|].
  pose proof (next_state g) as E1. destruct (next g) as [u1 g1].
  pose proof (next_state g1) as E2. destruct (next g1) as [u2 g2].
  simpl in *. congruence.
Qed.

Lemma perform_state (H : Host) (c : Call) (g : RNG) :
  state (snd (perform H c g)) = state g.
Proof.
  destruct c; simpl.
  - pose proof (next_state g). destruct (next g); assumption.
  - pose proof (range_state min max g). destruct (range _ _ g); assumption.
  - pose proof (int_state min max g). destruct (int _ _ g); assumption.
  - pose proof (boolean_state probability g). destruct (boolean _ g); assumption.
  - pose proof (choice_state array g). destruct (choice _ g); assumption.
  - pose proof (normal_state H mean stdDev g). destruct (normal _ _ _ g); assumption.
Qed.

Lemma performAll_state (H : Host) (cs : list Call) (g : RNG) :
  state (snd (performAll H cs g)) = state g.
Proof.
  revert g. induction cs as [|c cs IH]; intros g; simpl; [reflexivity|].
  pose proof (perform_state H c g) as E. destruct (perform H c g) as [v g1].
  specialize (IH g1). destruct (performAll H cs g1) as [vs g2].
  simpl in *. congruence.
Qed.

Lemma nextValues_constant (n : nat) (g : RNG) :
  nextValues n g = repeat (fst (next g)) n.
Proof.
  revert g. induction n as [|n IH]; intros g; simpl; [reflexivity|].
  pose proof (next_state g) as E.
  destruct (next g) as [v g1] eqn:N. simpl in *.
  rewrite IH. f_equal. f_equal.
  change v with (fst (v, g1)). rewrite <- N. apply next_value. exact E.
Qed.

End GeneratorFacts.

(** C3. [next] writes back the four state words it read, so on one instance
    every call of [next] returns the same value, whatever other methods are
    called in between; the values of [n] successive calls on a generator made
    from a seed are [n] copies of one number, the word computed from the
    seed's initial state divided by 2^32. *)
Theorem next_keeps_state_and_repeats :
  (forall g : Util.RNG, Util.state (snd (Util.next g)) = Util.state g) /\
  (forall (H : Host) (cs : list Instances.Call) (g : Util.RNG),
      fst (Util.next (snd (Instances.performAll H cs g))) = fst (Util.next g)) /\
  (forall (seed : Z) (n : nat),
      Instances.nextValues n (Util.newRNG seed) =
      repeat (div (ofZ (Util.nextWord (Util.state (Util.newRNG seed))))
                  (ofZ 0x100000000)) n).
Proof.
  split; [|split].
  - exact next_state.
  - intros H cs g. apply next_value. apply performAll_state.
  - intros seed n. rewrite nextValues_constant. f_equal.
Qed.

(** ** Instances do not share state *)

Section InstanceFacts.

Import Util Instances.

Variable H : Host.

(** The values that a schedule returns on one instance are the values of
    that instance's own calls, run on its own object. *)
Lemma runSchedule_on (sched : list (positive * Call)) :
  forall (h : Heap) (l : positive) (g : RNG),
    h !! l = Some g ->
    on l (runSchedule H sched h) = fst (performAll H (on l sched) g).
Proof.
  induction sched as [|[l' c] rest IH]; intros h l g Hl; [reflexivity|].
  destruct (Pos.eqb l' l) eqn:El.
  - apply Pos.eqb_eq in El. subst l'.
    assert (on l ((l, c) :: rest) = c :: on l rest) as ->.
    { unfold on. simpl. now rewrite Pos.eqb_refl. }
    simpl. unfold invoke. rewrite Hl.
    destruct (perform H c g) as [v g'] eqn:P.
    assert (on l ((l, v) :: runSchedule H rest (<[l := g']> h))
            = v :: on l (runSchedule H rest (<[l := g']> h))) as ->.
    { unfold on. simpl. now rewrite Pos.eqb_refl. }
    rewrite (IH (<[l := g']> h) l g' (lookup_insert_eq h l g')).
    destruct (performAll H (on l rest) g') as [vs g'']. reflexivity.
  - assert (on l ((l', c) :: rest) = on l rest) as ->.
    { unfold on. simpl. now rewrite El. }
    simpl. unfold invoke.
    destruct (h !! l') as [g2|] eqn:Hl'.
    + destruct (perform H c g2) as [v g2'] eqn:P.
      assert (on l ((l', v) :: runSchedule H rest (<[l' := g2']> h))
              = on l (runSchedule H rest (<[l' := g2']> h))) as ->.
      { unfold on. simpl. now rewrite El. }
      apply (IH (<[l' := g2']> h) l g).
      apply Pos.eqb_neq in El.
      rewrite lookup_insert_ne; assumption.
    + apply (IH h l g Hl).
Qed.

Lemma construct_lookup (seed : Z) (h : Heap) (l : positive) (h' : Heap) :
  construct seed h = (l, h') ->
  h !! l = None /\ h' = <[l := newRNG seed]> h.
Proof.
  unfold construct. intros E. injection E as <- <-. split; [|reflexivity].
  apply not_elem_of_dom. apply is_fresh.
Qed.

End InstanceFacts.

(** C8. Two generators constructed independently from the same seed return
    the same values for the same sequence of method calls ([next], [range],
    [int], [boolean], [choice], [normal]), however the calls on the two
    instances, and on any other instance, are interleaved. *)
Theorem same_seed_same_outputs
    (H : Host) (seed : Z) (h h1 h2 : Instances.Heap) (l1 l2 : positive)
    (sched : list (positive * Instances.Call)) :
  Instances.construct seed h = (l1, h1) ->
  Instances.construct seed h1 = (l2, h2) ->
  Instances.on l1 sched = Instances.on l2 sched ->
  Instances.on l1 (Instances.runSchedule H sched h2) =
  Instances.on l2 (Instances.runSchedule H sched h2).
Proof.
  intros C1 C2 Hcalls.
  apply construct_lookup in C1 as [F1 ->].
  apply construct_lookup in C2 as [F2 ->].
  assert (l1 <> l2) as Hne.
  { intros ->. rewrite lookup_insert_eq in F2. discriminate. }
  rewrite (runSchedule_on H sched _ l1 (Util.newRNG seed)).
  2:{ rewrite lookup_insert_ne by congruence. apply lookup_insert_eq. }
  rewrite (runSchedule_on H sched _ l2 (Util.newRNG seed)).
  2:{ apply lookup_insert_eq. }
  now rewrite Hcalls.
Qed.

Lemma same_seed_same_outputs_witness :
  Instances.on 1%positive
    (Instances.runSchedule SeriesHost.host Instances.mixedSchedule Instances.twoGenerators) =
  Instances.on 2%positive
    (Instances.runSchedule SeriesHost.host Instances.mixedSchedule Instances.twoGenerators).
Proof.
  apply (same_seed_same_outputs SeriesHost.host 42 ∅
           (snd (Instances.construct 42 ∅)) Instances.twoGenerators
           1%positive 2%positive Instances.mixedSchedule).
  - vm_compute. reflexivity.
  - vm_compute. reflexivity.
  - vm_compute. reflexivity.
Defined.

(** ** The simulation model *)

Section ModelFacts.

Import Config Util PVSimulationModel.
Local Open Scope js_scope.

Variable H : Host.
Variable site : SiteConfig.

(** The schema has no key [capacityAcKw]: the capacity that
    [calculateAcPower] reads is [undefined]. *)
Lemma capacityAcKw_undefined : getProp site "capacityAcKw" = VUndefined.
Proof. reflexivity. Qed.

Lemma capacityAcKW_defined : getProp site "capacityAcKW" = VNumber (capacityAcKW site).
Proof. reflexivity. Qed.

Lemma calculateAcPower_undefined_limit (dcPowerKw : number) :
  calculateAcPower site dcPowerKw = NaN.
Proof.
  unfold calculateAcPower.
  change (numberProp site "capacityAcKw") with NaN.
  rewrite Math_min_NaN_r. apply roundToDecimals_NaN.
Qed.

Lemma checkOutageLoop_true (date : JsDate.Date) (windows : list OutageWindow)
    (window : OutageWindow) :
  In window windows ->
  inWindow H date window = true ->
  checkOutageLoop H date windows = true.
Proof.
  induction windows as [|w ws IH]; intros Hin Hw; [destruct Hin|].
  simpl. destruct Hin as [->|Hin].
  - now rewrite Hw.
  - destruct (inWindow H date w); [reflexivity|]. now apply IH.
Qed.

Lemma calculateEnergy_zero (intervalMinutes : number) :
  wellFormed intervalMinutes = true ->
  isFinite intervalMinutes = true ->
  isZero (calculateEnergy (ofZ 0) intervalMinutes) = true.
Proof.
  intros Hwf Hfin. unfold calculateEnergy.
  apply roundToDecimals_zero.
  change (ofZ 0) with (S754_zero false).
  apply mul_zero_finite. now apply div_sixty_finite.
Qed.

End ModelFacts.

(** C9. When the computed solar elevation is at most zero,
    [calculateIrradiance] returns exactly 0 and leaves the generator as it
    was: nothing is drawn. *)
Theorem irradiance_zero_below_horizon
    (H : Host) (site : Config.SiteConfig) (date : JsDate.Date) (g : Util.RNG) :
  le (PVSimulationModel.elevationAt H site date) (ofZ 0) = true ->
  PVSimulationModel.calculateIrradiance H site date g = (S754_zero false, g).
Proof.
  intros Hel. unfold PVSimulationModel.calculateIrradiance.
  rewrite Hel. reflexivity.
Qed.

Lemma irradiance_zero_below_horizon_witness :
  PVSimulationModel.calculateIrradiance SeriesHost.host Examples.testSite
    Examples.nightTime (PVSimulationModel.newModel 42)
  = (S754_zero false, PVSimulationModel.newModel 42).
Proof.
  apply (irradiance_zero_below_horizon SeriesHost.host Examples.testSite
           Examples.nightTime (PVSimulationModel.newModel 42)).
  vm_compute. reflexivity.
Defined.

(** C4. At a timestamp inside a configured outage window (the time of day
    within [start, end] and the weekday matching the day pattern or the
    wildcard), [generateTelemetry] reports OUTAGE with zero power, whatever
    the curtailment probability, and the generator is left as the three
    weather computations left it: [checkCurtailment] draws nothing. The
    energy is zero for every interval that is a finite number of minutes
    (over a NaN or infinite interval the energy of 0 kW is NaN). *)
Theorem outage_takes_precedence
    (H : Host) (site : Config.SiteConfig) (date : JsDate.Date)
    (intervalMinutes : number) (g : Util.RNG) (window : Config.OutageWindow) :
  In window (Config.outageWindows site) ->
  ge (PVSimulationModel.utcHours date)
     (PVSimulationModel.parseTime H (Config.start window)) = true ->
  le (PVSimulationModel.utcHours date)
     (PVSimulationModel.parseTime H (Config.end_ window)) = true ->
  PVSimulationModel.matchesDayPattern (JsDate.getUTCDay date) (Config.days window) = true ->
  let '(_, g1) := PVSimulationModel.calculateIrradiance H site date g in
  let '(_, g2) := PVSimulationModel.calculateTemperature H site date g1 in
  let '(_, g3) := PVSimulationModel.calculateWindSpeed H date g2 in
  let '(row, g') := PVSimulationModel.generateTelemetry H site date intervalMinutes g in
  PVSimulationModel.status row = "OUTAGE"%string /\
  PVSimulationModel.acPowerKw row = S754_zero false /\
  g' = g3 /\
  (wellFormed intervalMinutes = true -> isFinite intervalMinutes = true ->
   isZero (PVSimulationModel.acEnergyKwh row) = true).
Proof.
  intros Hin Hge Hle Hday.
  assert (PVSimulationModel.checkOutage H site date = true) as Hout.
  { apply (checkOutageLoop_true H date _ window Hin).
    unfold PVSimulationModel.inWindow. now rewrite Hge, Hle, Hday. }
  unfold PVSimulationModel.generateTelemetry, PVSimulationModel.bind.
  destruct (PVSimulationModel.calculateIrradiance H site date g) as [poa g1].
  destruct (PVSimulationModel.calculateTemperature H site date g1) as [t g2].
  destruct (PVSimulationModel.calculateWindSpeed H date g2) as [w g3].
  rewrite Hout. simpl.
  repeat split. intros Hwf Hfin. now apply calculateEnergy_zero.
Qed.

Lemma outage_takes_precedence_witness :
  let '(_, g1) := PVSimulationModel.calculateIrradiance SeriesHost.host
                    Examples.outageSite Examples.morning (PVSimulationModel.newModel 42) in
  let '(_, g2) := PVSimulationModel.calculateTemperature SeriesHost.host
                    Examples.outageSite Examples.morning g1 in
  let '(_, g3) := PVSimulationModel.calculateWindSpeed SeriesHost.host
                    Examples.morning g2 in
  let '(row, g') := PVSimulationModel.generateTelemetry SeriesHost.host
                      Examples.outageSite Examples.morning (ofZ 5)
                      (PVSimulationModel.newModel 42) in
  PVSimulationModel.status row = "OUTAGE"%string /\
  PVSimulationModel.acPowerKw row = S754_zero false /\
  g' = g3 /\
  (wellFormed (ofZ 5) = true -> isFinite (ofZ 5) = true ->
   isZero (PVSimulationModel.acEnergyKwh row) = true).
Proof.
  apply (outage_takes_precedence SeriesHost.host Examples.outageSite Examples.morning
           (ofZ 5) (PVSimulationModel.newModel 42)
           {| Config.start := "08:00"; Config.end_ := "10:00"; Config.days := "ALL" |}).
  - left. reflexivity.
  - vm_compute. reflexivity.
  - vm_compute. reflexivity.
  - vm_compute. reflexivity.
Defined.

(** On the example the draw that was not made would have curtailed. *)
Example outage_example_would_curtail :
  fst (PVSimulationModel.checkCurtailment Examples.outageSite (PVSimulationModel.newModel 42))
  = true.
Proof. vm_compute. reflexivity. Qed.

(** C2. [calculateAcPower] clips with [this.site.capacityAcKw], a key that
    no site configuration has (the schema's key is [capacityAcKW]); the
    limit is [undefined], [Math.min] gives NaN, and so does the rounding:
    the power computed for every site and every DC power is NaN, which is
    neither at least 0 nor at most the capacity. *)
Theorem calculateAcPower_is_NaN (site : Config.SiteConfig) (dcPowerKw : number) :
  PVSimulationModel.calculateAcPower site dcPowerKw = NaN.
Proof. apply calculateAcPower_undefined_limit. Qed.

(** The repository's test "should respect AC capacity limit":
    [model.calculateAcPower(2000)] on [testSite], whose [capacityAcKW] is
    800, is not at most 800. *)
Example calculateAcPower_testSite :
  PVSimulationModel.calculateAcPower Examples.testSite (ofZ 2000) = NaN /\
  le (PVSimulationModel.calculateAcPower Examples.testSite (ofZ 2000))
     (Config.capacityAcKW Examples.testSite) = false.
Proof. split; vm_compute; reflexivity. Qed.

(** A record with status OK and positive irradiance carries NaN as power
    and as energy. *)
Lemma generateTelemetry_ok_power_NaN
    (H : Host) (site : Config.SiteConfig) (date : JsDate.Date)
    (intervalMinutes : number) (g : Util.RNG) :
  let row := fst (PVSimulationModel.generateTelemetry H site date intervalMinutes g) in
  PVSimulationModel.status row = "OK"%string ->
  gt (PVSimulationModel.poaIrrWm2 row) (ofZ 0) = true ->
  PVSimulationModel.acPowerKw row = NaN /\ PVSimulationModel.acEnergyKwh row = NaN.
Proof.
  unfold PVSimulationModel.generateTelemetry, PVSimulationModel.bind.
  destruct (PVSimulationModel.calculateIrradiance H site date g) as [poa g1].
  destruct (PVSimulationModel.calculateTemperature H site date g1) as [t g2].
  destruct (PVSimulationModel.calculateWindSpeed H date g2) as [w g3].
  destruct (PVSimulationModel.checkOutage H site date); simpl.
  - intros Hst. discriminate Hst.
  - destruct (PVSimulationModel.checkCurtailment site g3) as [[|] g4]; simpl.
    + intros Hst. discriminate Hst.
    + intros _ Hpos. rewrite Hpos.
      rewrite calculateAcPower_undefined_limit. split; reflexivity.
Qed.

(** The repository's test "should generate valid telemetry data", on the
    series host: noon of 21 June 2024 on [testSite] with seed 42. *)
Example generateTelemetry_testSite_noon :
  let row := fst (PVSimulationModel.generateTelemetry SeriesHost.host Examples.testSite
                    Examples.dayTime (ofZ 5) (PVSimulationModel.newModel 42)) in
  PVSimulationModel.status row = "OK"%string /\
  PVSimulationModel.acPowerKw row = NaN /\
  ge (PVSimulationModel.acPowerKw row) (ofZ 0) = false /\
  ge (PVSimulationModel.acEnergyKwh row) (ofZ 0) = false.
Proof. vm_compute. repeat split. Qed.

(** ** The Merkle root *)

Section StringOrder.

Import JsString.

Lemma N_of_ascii_inj (a b : ascii) : N_of_ascii a = N_of_ascii b -> a = b.
Proof.
  intros E. rewrite <- (ascii_N_embedding a), <- (ascii_N_embedding b).
  now rewrite E.
Qed.

Lemma ltb_irrefl (s : string) : ltb s s = false.
Proof.
  induction s as [|a s IH]; [reflexivity|].
  simpl. now rewrite N.ltb_irrefl.
Qed.

(** Of [s < t], [s = t] and [t < s], one holds. *)
Lemma ltb_trichotomy (s t : string) :
  ltb s t = true \/ s = t \/ ltb t s = true.
Proof.
  revert t. induction s as [|a s IH]; intros [|b t]; simpl; auto.
  destruct (N.ltb_spec (N_of_ascii a) (N_of_ascii b)) as [Hab|Hab]; [auto|].
  destruct (N.ltb_spec (N_of_ascii b) (N_of_ascii a)) as [Hba|Hba]; [auto|].
  assert (a = b) as -> by (apply N_of_ascii_inj; lia).
  destruct (IH t) as [Hlt|[->|Hgt]]; auto.
Qed.

Lemma ltb_asym (s t : string) : ltb s t = true -> ltb t s = false.
Proof.
  revert t. induction s as [|a s IH]; intros [|b t]; simpl; try congruence.
  destruct (N.ltb_spec (N_of_ascii a) (N_of_ascii b)) as [Hab|Hab].
  - intros _. destruct (N.ltb_spec (N_of_ascii b) (N_of_ascii a)); [lia|reflexivity].
  - destruct (N.ltb_spec (N_of_ascii b) (N_of_ascii a)) as [Hba|Hba]; [discriminate|].
    apply IH.
Qed.

Lemma ltb_trans (s t u : string) :
  ltb s t = true -> ltb t u = true -> ltb s u = true.
Proof.
  revert t u. induction s as [|a s IH]; intros [|b t] [|c u]; simpl; try congruence.
  destruct (N.ltb_spec (N_of_ascii a) (N_of_ascii b)) as [Hab|Hab];
  destruct (N.ltb_spec (N_of_ascii b) (N_of_ascii c)) as [Hbc|Hbc];
  destruct (N.ltb_spec (N_of_ascii a) (N_of_ascii c)) as [Hac|Hac];
  try reflexivity; try lia;
  destruct (N.ltb_spec (N_of_ascii b) (N_of_ascii a)) as [Hba|Hba];
  destruct (N.ltb_spec (N_of_ascii c) (N_of_ascii b)) as [Hcb|Hcb];
  destruct (N.ltb_spec (N_of_ascii c) (N_of_ascii a)) as [Hca|Hca];
  try discriminate; try lia; intros; try discriminate.
  eapply IH; eassumption.
Qed.

Lemma sle_total (s t : string) : sle s t \/ sle t s.
Proof.
  unfold sle. destruct (ltb t s) eqn:E; [right|left; reflexivity].
  now apply ltb_asym.
Qed.

#[global] Instance sle_trans : Transitive sle.
Proof.
  unfold sle. intros s t u Hst Htu.
  destruct (ltb u s) eqn:E; [|reflexivity].
  destruct (ltb_trichotomy t s) as [H1|[->|H1]]; [congruence| congruence|].
  destruct (ltb_trichotomy u t) as [H2|[->|H2]]; [congruence| congruence|].
  pose proof (ltb_trans _ _ _ H1 H2) as H3.
  apply ltb_asym in H3. congruence.
Qed.

#[global] Instance sle_antisym : AntiSymm (=) sle.
Proof.
  unfold sle. intros s t Hst Hts.
  destruct (ltb_trichotomy s t) as [H1|[->|H1]]; congruence.
Qed.

End StringOrder.

Section MerkleFacts.

Import Util.

Lemma insertSorted_perm (x : string) (l : list string) :
  Permutation (insertSorted x l) (x :: l).
Proof.
  induction l as [|y l IH]; simpl; [reflexivity|].
  destruct (JsString.ltb x y); [reflexivity|].
  rewrite IH. apply perm_swap.
Qed.

Lemma sort_perm (l : list string) : Permutation (sort l) l.
Proof.
  induction l as [|x l IH]; simpl; [reflexivity|].
  rewrite insertSorted_perm. now constructor.
Qed.

Lemma insertSorted_hd (x y : string) (l : list string) :
  sle y x -> HdRel sle y l -> HdRel sle y (insertSorted x l).
Proof.
  intros Hyx Hl. destruct l as [|z l]; simpl.
  - now constructor.
  - destruct (JsString.ltb x z); constructor; [assumption|].
    now inversion Hl.
Qed.

Lemma insertSorted_sorted (x : string) (l : list string) :
  Sorted sle l -> Sorted sle (insertSorted x l).
Proof.
  induction l as [|y l IH]; intros Hs; simpl.
  - repeat constructor.
  - inversion Hs as [|? ? Hl Hhd]; subst.
    destruct (JsString.ltb x y) eqn:E.
    + constructor; [assumption|]. constructor.
      unfold sle. now apply ltb_asym.
    + constructor; [now apply IH|].
      apply insertSorted_hd; assumption.
Qed.

Lemma sort_sorted (l : list string) : Sorted sle (sort l).
Proof.
  induction l as [|x l IH]; simpl; [constructor|].
  now apply insertSorted_sorted.
Qed.

(** Sorting forgets the order of the input. *)
Lemma sort_permutation (l l' : list string) :
  Permutation l l' -> sort l = sort l'.
Proof.
  intros Hp. apply (Sorted_unique sle); try apply sort_sorted.
  rewrite !sort_perm. exact Hp.
Qed.

(** A pass does not lengthen a level, and keeps it non-empty. *)
Lemma nextLevel_length (l : list string) :
  (length (nextLevel l) <= length l)%nat /\
  (forall x, length (nextLevel (x :: l)) <= S (length l))%nat.
Proof.
  induction l as [|y l [IH1 IH2]].
  - cbn [nextLevel length]. split; [lia|intros; lia].
  - split.
    + apply IH2.
    + intros x. cbn [nextLevel length]. lia.
Qed.

Lemma nextLevel_nonempty (l : list string) : l <> [] -> nextLevel l <> [].
Proof. destruct l as [|x [|y l]]; [congruence|discriminate|discriminate]. Qed.

(** The [while] loop ends with one entry when given as many passes as the
    level is long. *)
Lemma whileLevels_singleton (fuel : nat) (l : list string) :
  l <> [] -> (length l <= S fuel)%nat -> exists r, whileLevels fuel l = [r].
Proof.
  revert l. induction fuel as [|fuel IH]; intros l Hne Hlen.
  - destruct l as [|x [|y l]]; [congruence|eauto|cbn [length] in Hlen; lia].
  - cbn [whileLevels]. destruct l as [|x [|y l]]; [congruence|cbn; eauto|].
    change (1 <? length (x :: y :: l))%nat with true. cbv iota.
    apply IH.
    + apply nextLevel_nonempty. discriminate.
    + destruct (nextLevel_length l) as [Hl _].
      cbn [nextLevel length] in *. lia.
Qed.

Lemma buildMerkleRoot_last_level (x y : string) (l : list string) :
  exists r,
    whileLevels (length (sort (x :: y :: l))) (sort (x :: y :: l)) = [r] /\
    buildMerkleRoot (x :: y :: l) = r.
Proof.
  destruct (whileLevels_singleton (length (sort (x :: y :: l))) (sort (x :: y :: l)))
    as [r Hr].
  - intros E. pose proof (sort_perm (x :: y :: l)) as Hp.
    rewrite E in Hp. apply Permutation_nil in Hp. discriminate.
  - lia.
  - exists r. split; [exact Hr|].
    unfold buildMerkleRoot. now rewrite Hr.
Qed.

Lemma buildMerkleRoot_permutation (l l' : list string) :
  Permutation l l' -> buildMerkleRoot l = buildMerkleRoot l'.
Proof.
  intros Hp.
  destruct l as [|x [|y l]].
  - apply Permutation_nil in Hp. now subst.
  - apply Permutation_length_1_inv in Hp. now subst.
  - pose proof (Permutation_length Hp) as Hlen.
    destruct l' as [|x' [|y' l']]; try discriminate Hlen.
    unfold buildMerkleRoot.
    now rewrite (sort_permutation _ _ Hp).
Qed.

End MerkleFacts.

(** C5. For a non-empty list of hashes, [buildMerkleRoot] returns the same
    root for every permutation of the list. *)
Theorem merkle_root_permutation_invariant (hashes hashes' : list string) :
  hashes <> [] ->
  Permutation hashes hashes' ->
  Util.buildMerkleRoot hashes = Util.buildMerkleRoot hashes'.
Proof. intros _. apply buildMerkleRoot_permutation. Qed.

Lemma merkle_root_permutation_invariant_witness :
  Util.buildMerkleRoot ["hash1"; "hash2"; "hash3"; "hash4"]%string =
  Util.buildMerkleRoot ["hash4"; "hash3"; "hash2"; "hash1"]%string.
Proof.
  apply (merkle_root_permutation_invariant
           ["hash1"; "hash2"; "hash3"; "hash4"]%string
           ["hash4"; "hash3"; "hash2"; "hash1"]%string).
  - discriminate.
  - apply (Permutation_rev ["hash1"; "hash2"; "hash3"; "hash4"]%string).
Defined.

(** C1, as stated, fails: for the empty list [buildMerkleRoot] does not
    throw; it returns a root, the digest of the empty string. *)
Lemma buildMerkleRoot_empty_does_not_fail :
  ~ throws (DigestGenerator.callBuildMerkleRoot []) /\
  DigestGenerator.callBuildMerkleRoot [] =
    Returned "e3b0c44298fc1c149afbf4c8996fb92427ae41e4649b934ca495991b7852b855"%string.
Proof.
  split.
  - intros [e He]. discriminate He.
  - vm_compute. reflexivity.
Qed.

(** C1, amended. For the empty list [buildMerkleRoot] returns the SHA-256
    digest of the empty string; the error for a day without telemetry is
    raised by the digest generator, which throws before it calls
    [buildMerkleRoot] and otherwise returns the root that [buildMerkleRoot]
    computes. *)
Theorem buildMerkleRoot_empty_is_digest_of_empty_string :
  Util.buildMerkleRoot [] = sha256 "" /\
  sha256 "" = "e3b0c44298fc1c149afbf4c8996fb92427ae41e4649b934ca495991b7852b855"%string /\
  (forall siteId dayUtc : string,
      throws (DigestGenerator.merkleRootOfDay siteId dayUtc [])) /\
  (forall (siteId dayUtc : string) (rowHashes : list string),
      DigestGenerator.merkleRootOfDay siteId dayUtc rowHashes =
      match rowHashes with
      | [] => DigestGenerator.merkleRootOfDay siteId dayUtc []
      | _ => Returned (Util.buildMerkleRoot rowHashes)
      end).
Proof.
  split; [reflexivity|]. split; [vm_compute; reflexivity|]. split.
  - intros siteId dayUtc. eexists. reflexivity.
  - intros siteId dayUtc [|h hs]; reflexivity.
Qed.

(** ** Row hashes *)

Section RowHashFacts.

Import JsFormat Precision.

Lemma negative_finite (s : bool) (m : positive) (e : Z) :
  negative (S754_finite s m e) = s.
Proof. destruct s; reflexivity. Qed.

(** The mantissa of a binary64 number has at most 53 bits. *)
Lemma wellFormed_mantissa (s : bool) (m : positive) (e : Z) :
  wellFormed (S754_finite s m e) = true -> (Zpos m < 2 ^ 53)%Z.
Proof.
  unfold wellFormed, valid_binary, bounded, canonical_mantissa, fexp, SpecFloat.emin.
  intros Hb. apply andb_prop in Hb. destruct Hb as [Hc _]. apply Z.eqb_eq in Hc.
  pose proof (digits2_pos_bounds m) as [_ Hm].
  assert (Zpos (digits2_pos m) <= 53)%Z as Hd by (unfold prec, emax in Hc; lia).
  apply (Z.lt_le_trans _ _ _ Hm). apply Z.pow_le_mono_r; lia.
Qed.

(** A binary64 number of at least [10^21] is an integer multiple of its
    unit: its exponent is not negative. *)
Lemma large_exponent (s : bool) (m : positive) (e : Z) :
  wellFormed (S754_finite s m e) = true -> atLeast1e21 m e = true -> (0 <= e)%Z.
Proof.
  intros Hw Hl. apply wellFormed_mantissa in Hw. unfold atLeast1e21 in Hl.
  destruct (Z.leb_spec 0 e) as [He|He]; [exact He|].
  apply Z.leb_le in Hl.
  assert (0 < 2 ^ (- e))%Z as Hp by (apply Z.pow_pos_nonneg; lia).
  assert (2 ^ 53 < 10 ^ 21)%Z as Hc by reflexivity.
  nia.
Qed.

Lemma scaled_large (d : nat) (m : positive) (e : Z) :
  (0 <= e)%Z -> atLeast1e21 m e = true ->
  (10 ^ 21 * 10 ^ Z.of_nat d <= scaled d m e)%Z /\
  scaled d m e = (Zpos m * 2 ^ e * 10 ^ Z.of_nat d)%Z.
Proof.
  intros He Hl. unfold atLeast1e21 in Hl. unfold scaled.
  destruct (Z.leb_spec 0 e) as [_|]; [|lia]. apply Z.leb_le in Hl.
  assert (0 < 10 ^ Z.of_nat d)%Z as Hp by (apply Z.pow_pos_nonneg; lia).
  split; nia.
Qed.

Lemma scaled_small (d : nat) (s : bool) (m : positive) (e : Z) :
  wellFormed (S754_finite s m e) = true -> atLeast1e21 m e = false ->
  (scaled d m e < 10 ^ 21 * 10 ^ Z.of_nat d)%Z.
Proof.
  intros Hw Hl. apply wellFormed_mantissa in Hw. unfold atLeast1e21 in Hl.
  unfold scaled.
  assert (0 < 10 ^ Z.of_nat d)%Z as Hp by (apply Z.pow_pos_nonneg; lia).
  destruct (Z.leb_spec 0 e) as [He|He].
  - apply Z.leb_gt in Hl. nia.
  - clear Hl. assert (2 ^ 53 < 10 ^ 21)%Z as Hc by reflexivity.
    set (t := (Zpos m * 10 ^ Z.of_nat d)%Z).
    assert (0 < t)%Z as Ht by (unfold t; nia).
    assert ((2 * t + 2 ^ (- e)) / 2 ^ (1 - e) <= t)%Z as Hdiv.
    { replace (1 - e)%Z with (Z.succ (- e)) by lia.
      rewrite Z.pow_succ_r by lia.
      assert (2 <= 2 ^ (- e))%Z as Hk.
      { change 2%Z with (2 ^ 1)%Z at 1. apply Z.pow_le_mono_r; lia. }
      apply Z.div_le_upper_bound; nia. }
    unfold t in *. nia.
Qed.

(** Equal values at the precision and equal signs give equal renderings. *)
Lemma toFixed_same (d : nat) (x y : number) :
  wellFormed x = true -> wellFormed y = true ->
  sameAtPrecision d x y = true -> negative x = negative y ->
  toFixed x d = toFixed y d.
Proof.
  intros Hwx Hwy Hsame Hsign. unfold sameAtPrecision in Hsame.
  assert (0 < 10 ^ Z.of_nat d)%Z as Hp by (apply Z.pow_pos_nonneg; lia).
  destruct x as [sx|sx| |sx mx ex]; destruct y as [sy|sy| |sy my ey];
    cbn [atPrecision] in Hsame; try discriminate Hsame.
  - reflexivity.
  - rewrite negative_finite in Hsign. change (negative (S754_zero sx)) with false in Hsign.
    subst sy. apply Z.eqb_eq in Hsame. cbn [toFixed].
    destruct (atLeast1e21 my ey) eqn:El.
    + pose proof (large_exponent _ _ _ Hwy El) as He.
      destruct (scaled_large d my ey He El) as [Hs _]. lia.
    + rewrite <- Hsame. reflexivity.
  - apply Bool.eqb_prop in Hsame. now subst sy.
  - reflexivity.
  - rewrite negative_finite in Hsign. change (negative (S754_zero sy)) with false in Hsign.
    subst sx. apply Z.eqb_eq in Hsame. cbn [toFixed].
    destruct (atLeast1e21 mx ex) eqn:El.
    + pose proof (large_exponent _ _ _ Hwx El) as He.
      destruct (scaled_large d mx ex He El) as [Hs _]. lia.
    + rewrite Hsame. reflexivity.
  - rewrite !negative_finite in Hsign. subst sy. apply Z.eqb_eq in Hsame.
    assert (scaled d mx ex = scaled d my ey) as Hsc by (destruct sx; lia).
    cbn [toFixed].
    destruct (atLeast1e21 mx ex) eqn:Elx; destruct (atLeast1e21 my ey) eqn:Ely.
    + pose proof (large_exponent _ _ _ Hwx Elx) as Hex.
      pose proof (large_exponent _ _ _ Hwy Ely) as Hey.
      destruct (scaled_large d mx ex Hex Elx) as [_ Hx].
      destruct (scaled_large d my ey Hey Ely) as [_ Hy].
      assert (Zpos mx * 2 ^ ex = Zpos my * 2 ^ ey)%Z as HX.
      { apply (Z.mul_cancel_r _ _ (10 ^ Z.of_nat d)); lia. }
      unfold toStringLarge. rewrite HX. reflexivity.
    + pose proof (large_exponent _ _ _ Hwx Elx) as Hex.
      destruct (scaled_large d mx ex Hex Elx) as [Hx _].
      pose proof (scaled_small d _ _ _ Hwy Ely). lia.
    + pose proof (large_exponent _ _ _ Hwy Ely) as Hey.
      destruct (scaled_large d my ey Hey Ely) as [Hy _].
      pose proof (scaled_small d _ _ _ Hwx Elx). lia.
    + rewrite Hsc. reflexivity.
Qed.

(** A value against itself: NaN, the infinities and a number of at least
    [10^21] are equal to themselves at every precision. *)
Lemma sameAtPrecision_of_itself :
  sameAtPrecision 3 NaN NaN = true /\
  sameAtPrecision 3 pinf pinf = true /\
  sameAtPrecision 1 (ofZ (10 ^ 21)) (ofZ (10 ^ 21)) = true /\
  sameAtPrecision 1 pinf NaN = false /\
  sameAtPrecision 1 (ofZ (10 ^ 21)) (ofZ (2 * 10 ^ 21)) = false.
Proof. repeat apply conj; vm_compute; reflexivity. Qed.

(** Numbers that are equal ([==]) render alike: 1.5 and 1.500 are one
    number, and the two zeros both render without a sign. *)
Lemma toFixed_of_equal_decimals :
  toFixed (ofDec 15 1) 3 = toFixed (ofDec 1500 3) 3 /\
  toFixed (S754_zero true) 1 = toFixed (S754_zero false) 1.
Proof. split; vm_compute; reflexivity. Qed.

End RowHashFacts.

(** C7, as stated, fails: -0.04 and 0.04 are both 0.0 at one decimal, yet
    they render as "-0.0" and "0.0", and the two rows hash differently. *)
Lemma row_hash_differs_across_zero :
  Precision.sameAtPrecision 3 (ofDec 15 1) (ofDec 15 1) = true /\
  Precision.sameAtPrecision 3 (ofZ 2) (ofZ 2) = true /\
  Precision.sameAtPrecision 1 (ofZ 100) (ofZ 100) = true /\
  Precision.sameAtPrecision 1 (ofDec (-4) 2) (ofDec 4 2) = true /\
  JsFormat.toFixed (ofDec (-4) 2) 1 = "-0.0"%string /\
  JsFormat.toFixed (ofDec 4 2) 1 = "0.0"%string /\
  Util.hashTelemetryRow "SITE1" "2024-01-01T00:00:00Z"
    (ofDec 15 1) (ofZ 2) (ofZ 100) (ofDec (-4) 2) "OK" <>
  Util.hashTelemetryRow "SITE1" "2024-01-01T00:00:00Z"
    (ofDec 15 1) (ofZ 2) (ofZ 100) (ofDec 4 2) "OK".
Proof.
  repeat apply conj; try (vm_compute; reflexivity).
  vm_compute. discriminate.
Qed.

(** C7, amended. Two rows with the same site, timestamp and status, whose
    numeric fields are equal at the stated precision (three decimals for
    energy and power, one for irradiance and temperature) and agree in
    being negative or not, have the same hash. The fields are any binary64
    numbers: finite of any magnitude, infinite or NaN. *)
Theorem row_hash_same_at_precision
    (siteId tsUtc status : string)
    (acEnergyKwh acPowerKw poaIrrWm2 tempC : number)
    (acEnergyKwh' acPowerKw' poaIrrWm2' tempC' : number) :
  wellFormed acEnergyKwh = true -> wellFormed acEnergyKwh' = true ->
  wellFormed acPowerKw = true -> wellFormed acPowerKw' = true ->
  wellFormed poaIrrWm2 = true -> wellFormed poaIrrWm2' = true ->
  wellFormed tempC = true -> wellFormed tempC' = true ->
  Precision.sameAtPrecision 3 acEnergyKwh acEnergyKwh' = true ->
  Precision.sameAtPrecision 3 acPowerKw acPowerKw' = true ->
  Precision.sameAtPrecision 1 poaIrrWm2 poaIrrWm2' = true ->
  Precision.sameAtPrecision 1 tempC tempC' = true ->
  Precision.negative acEnergyKwh = Precision.negative acEnergyKwh' ->
  Precision.negative acPowerKw = Precision.negative acPowerKw' ->
  Precision.negative poaIrrWm2 = Precision.negative poaIrrWm2' ->
  Precision.negative tempC = Precision.negative tempC' ->
  Util.hashTelemetryRow siteId tsUtc acEnergyKwh acPowerKw poaIrrWm2 tempC status =
  Util.hashTelemetryRow siteId tsUtc acEnergyKwh' acPowerKw' poaIrrWm2' tempC' status.
Proof.
  intros We We' Wp Wp' Wi Wi' Wt Wt' He Hp Hi Ht Se Sp Si St.
  unfold Util.hashTelemetryRow.
  rewrite (toFixed_same 3 _ _ We We' He Se), (toFixed_same 3 _ _ Wp Wp' Hp Sp),
          (toFixed_same 1 _ _ Wi Wi' Hi Si), (toFixed_same 1 _ _ Wt Wt' Ht St).
  reflexivity.
Qed.

Lemma row_hash_same_at_precision_witness :
  Util.hashTelemetryRow "SITE1" "2024-01-01T00:00:00Z"
    (ofDec 15 1) (ofZ 2) (ofZ 100) (ofZ 25) "OK" =
  Util.hashTelemetryRow "SITE1" "2024-01-01T00:00:00Z"
    (ofDec 15004 4) (ofDec 20001 4) (ofDec 10004 2) (ofDec 2496 2) "OK".
Proof.
  apply (row_hash_same_at_precision "SITE1" "2024-01-01T00:00:00Z" "OK"
           (ofDec 15 1) (ofZ 2) (ofZ 100) (ofZ 25)
           (ofDec 15004 4) (ofDec 20001 4) (ofDec 10004 2) (ofDec 2496 2));
    vm_compute; reflexivity.
Defined.

(** ** The anchor client *)

Section ClientFacts.

Import RegistryAdapterClient.

Variable adapter : Adapter.

(** [anchorDigest] catches whatever the request throws. *)
Lemma anchorDigest_returns (c : Client) (siteId dayUtc merkleRoot : string)
    (uri : option string) (w : World) :
  exists r w', anchorDigest adapter c siteId dayUtc merkleRoot uri w = (Returned r, w').
Proof.
  unfold anchorDigest. destruct (negb (enabled c)); [unfold ioRet; eauto|].
  unfold tryCatch, ioBind, clientPost, ioRet.
  destruct (onPost adapter (requests w) _) as [data|[re msg|msg|]]; eauto.
Qed.

Lemma retryLoop_returns (fuel : nat) (c : Client) (siteId dayUtc merkleRoot : string)
    (uri : option string) (maxRetries : Z) :
  forall (attempt : Z) (lastError : option string) (w : World),
  exists r w',
    retryLoop adapter fuel c siteId dayUtc merkleRoot uri maxRetries attempt lastError w
    = (Returned r, w').
Proof.
  induction fuel as [|fuel IH]; intros attempt lastError w.
  - cbn [retryLoop]. unfold ioRet. eauto.
  - cbn [retryLoop]. destruct (attempt <=? maxRetries)%Z; [|unfold ioRet; eauto].
    unfold ioBind at 1. unfold tryCatch. unfold ioBind at 1.
    destruct (anchorDigest_returns c siteId dayUtc merkleRoot uri w) as [r [w1 ->]].
    destruct (success r).
    + unfold ioRet. eauto.
    + unfold ioBind.
      destruct (attempt <? maxRetries)%Z; unfold sleep, ioRet; apply IH.
Qed.

(** [anchorDigest] never sleeps, and posts once on an enabled client. *)
Lemma anchorDigest_trace (c : Client) (siteId dayUtc merkleRoot : string)
    (uri : option string) (w w1 : World) (r : AnchorResponse) :
  anchorDigest adapter c siteId dayUtc merkleRoot uri w = (Returned r, w1) ->
  Traces.sleeps (trace w1) = Traces.sleeps (trace w) /\
  Traces.posts (trace w1)
  = (Traces.posts (trace w) + (if enabled c then 1 else 0))%nat.
Proof.
  unfold anchorDigest. destruct (enabled c); cbn [negb].
  - unfold tryCatch, ioBind, clientPost, ioRet.
    assert (forall (o : Outcome AnchorResponse) (w' : World),
              w' = {| requests := S (requests w);
                      trace := trace w ++ [EPost "/v1/anchor"
                        {| topic := ("IOT:" ++ siteId ++ ":" ++ dayUtc)%string;
                           hash := if JsString.startsWith merkleRoot "0x"
                                   then merkleRoot else ("0x" ++ merkleRoot)%string;
                           uri := uri |}] |} ->
              Traces.sleeps (trace w') = Traces.sleeps (trace w) /\
              Traces.posts (trace w') = (Traces.posts (trace w) + 1)%nat) as Hw.
    { intros _ w' ->. cbn [trace]. unfold Traces.sleeps, Traces.posts.
      rewrite flat_map_app, List.filter_app, length_app. cbn.
      rewrite app_nil_r. split; reflexivity. }
    destruct (onPost adapter (requests w) _) as [data|[re msg|msg|]];
      intros E; injection E as _ <-; apply (Hw (Returned r)); reflexivity.
  - unfold ioRet. intros E. injection E as _ <-. split; [reflexivity|lia].
Qed.

(** One pass of the loop. *)
Lemma retryLoop_step (fuel : nat) (c : Client) (siteId dayUtc merkleRoot : string)
    (uri : option string) (maxRetries attempt : Z) (lastError : option string)
    (w w1 : World) (r : AnchorResponse) :
  (attempt <=? maxRetries)%Z = true ->
  anchorDigest adapter c siteId dayUtc merkleRoot uri w = (Returned r, w1) ->
  retryLoop adapter (S fuel) c siteId dayUtc merkleRoot uri maxRetries attempt lastError w
  = if success r then (Returned (inl r), w1)
    else retryLoop adapter fuel c siteId dayUtc merkleRoot uri maxRetries
           (attempt + 1)%Z (error r)
           (if (attempt <? maxRetries)%Z then snd (sleep (backoff attempt) w1) else w1).
Proof.
  intros Hle Ha. cbn [retryLoop]. rewrite Hle.
  unfold ioBind at 1. unfold tryCatch. unfold ioBind at 1. rewrite Ha.
  destruct (success r); [reflexivity|].
  unfold ioBind. destruct (attempt <? maxRetries)%Z; reflexivity.
Qed.

End ClientFacts.

(** C6. With the default of three attempts, [anchorDigestWithRetry] calls
    [anchorDigest] up to three times, sleeping 2^1 seconds after a failed
    first attempt and 2^2 seconds after a failed second one, and not after
    the third: the trace of the run holds these delays and no other, and
    one request for each attempt of an enabled client. It returns the first
    successful response as [anchorDigest] returned it, and when the three
    attempts fail it returns a failure whose message gives the attempt
    count and the last error. It returns for every number of attempts and
    every behaviour of the adapter: it never throws. *)
Theorem retry_three_attempts
    (adapter : RegistryAdapterClient.Adapter) (c : RegistryAdapterClient.Client)
    (siteId dayUtc merkleRoot : string) (uri : option string)
    (w : RegistryAdapterClient.World) :
  let attempt := RegistryAdapterClient.anchorDigest adapter c siteId dayUtc merkleRoot uri in
  let result := RegistryAdapterClient.anchorDigestWithRetry adapter c siteId dayUtc
                  merkleRoot uri RegistryAdapterClient.defaultMaxRetries w in
  let slept ms w' :=
    {| RegistryAdapterClient.requests := RegistryAdapterClient.requests w';
       RegistryAdapterClient.trace :=
         RegistryAdapterClient.trace w' ++ [RegistryAdapterClient.ESleep ms] |} in
  let sleeps w' := Traces.sleeps (RegistryAdapterClient.trace w') in
  let posts w' := Traces.posts (RegistryAdapterClient.trace w') in
  let sent := if RegistryAdapterClient.enabled c then 1%nat else 0%nat in
  (exists r1 w1, attempt w = (Returned r1, w1) /\
     sleeps w1 = sleeps w /\ posts w1 = (posts w + sent)%nat /\
     if RegistryAdapterClient.success r1 then result = (Returned r1, w1)
     else
       exists r2 w2, attempt (slept (2 ^ 1 * 1000)%Z w1) = (Returned r2, w2) /\
         sleeps w2 = sleeps w ++ [(2 ^ 1 * 1000)%Z] /\
         posts w2 = (posts w + 2 * sent)%nat /\
         if RegistryAdapterClient.success r2 then result = (Returned r2, w2)
         else
           exists r3 w3, attempt (slept (2 ^ 2 * 1000)%Z w2) = (Returned r3, w3) /\
             sleeps w3 = sleeps w ++ [(2 ^ 1 * 1000)%Z; (2 ^ 2 * 1000)%Z] /\
             posts w3 = (posts w + 3 * sent)%nat /\
             if RegistryAdapterClient.success r3 then result = (Returned r3, w3)
             else
               result =
               (Returned
                  (RegistryAdapterClient.failure
                     (Some ("Failed after 3 attempts: " ++
                            RegistryAdapterClient.showError
                              (RegistryAdapterClient.error r3))%string)),
                w3)) /\
  (forall maxRetries : Z,
      exists r w',
        RegistryAdapterClient.anchorDigestWithRetry adapter c siteId dayUtc
          merkleRoot uri maxRetries w = (Returned r, w')).
Proof.
  intros attempt result slept sleeps posts sent. split.
  - subst attempt result sleeps posts sent.
    unfold RegistryAdapterClient.anchorDigestWithRetry,
           RegistryAdapterClient.defaultMaxRetries.
    change (Z.to_nat 3) with 3%nat.
    destruct (anchorDigest_returns adapter c siteId dayUtc merkleRoot uri w)
      as [r1 [w1 E1]].
    destruct (anchorDigest_trace adapter c siteId dayUtc merkleRoot uri _ _ _ E1)
      as [S1 P1].
    exists r1, w1. split; [exact E1|]. split; [exact S1|]. split; [exact P1|].
    unfold RegistryAdapterClient.ioBind.
    rewrite (retryLoop_step adapter 2 c siteId dayUtc merkleRoot uri 3 1 None w w1 r1
               eq_refl E1).
    destruct (RegistryAdapterClient.success r1); [reflexivity|].
    change (1 <? 3)%Z with true. cbv iota.
    change (snd (RegistryAdapterClient.sleep (RegistryAdapterClient.backoff 1) w1))
      with (slept (2 ^ 1 * 1000)%Z w1).
    destruct (anchorDigest_returns adapter c siteId dayUtc merkleRoot uri
                (slept (2 ^ 1 * 1000)%Z w1))
      as [r2 [w2 E2]].
    destruct (anchorDigest_trace adapter c siteId dayUtc merkleRoot uri _ _ _ E2)
      as [S2 P2].
    exists r2, w2. split; [exact E2|].
    split; [|split].
    { rewrite S2. subst slept. cbn [RegistryAdapterClient.trace].
      unfold Traces.sleeps in *. rewrite flat_map_app, S1. reflexivity. }
    { rewrite P2. subst slept. cbn [RegistryAdapterClient.trace].
      unfold Traces.posts in *. rewrite List.filter_app, length_app, P1. cbn. lia. }
    rewrite (retryLoop_step adapter 1 c siteId dayUtc merkleRoot uri 3 (1 + 1) _ _ w2 r2
               eq_refl E2).
    destruct (RegistryAdapterClient.success r2); [reflexivity|].
    change (1 + 1 <? 3)%Z with true. cbv iota.
    change (snd (RegistryAdapterClient.sleep (RegistryAdapterClient.backoff (1 + 1)) w2))
      with (slept (2 ^ 2 * 1000)%Z w2).
    destruct (anchorDigest_returns adapter c siteId dayUtc merkleRoot uri
                (slept (2 ^ 2 * 1000)%Z w2))
      as [r3 [w3 E3]].
    destruct (anchorDigest_trace adapter c siteId dayUtc merkleRoot uri _ _ _ E3)
      as [S3 P3].
    exists r3, w3. split; [exact E3|].
    split; [|split].
    { rewrite S3. subst slept. cbn [RegistryAdapterClient.trace].
      unfold Traces.sleeps in *. rewrite flat_map_app.
      cbn [RegistryAdapterClient.trace] in S2. rewrite S2, flat_map_app, S1.
      rewrite <- app_assoc. reflexivity. }
    { rewrite P3. subst slept. cbn [RegistryAdapterClient.trace].
      unfold Traces.posts in *. rewrite List.filter_app, length_app.
      cbn [RegistryAdapterClient.trace] in P2.
      rewrite P2, List.filter_app, length_app, P1. cbn. lia. }
    rewrite (retryLoop_step adapter 0 c siteId dayUtc merkleRoot uri 3 (1 + 1 + 1) _ _ w3 r3
               eq_refl E3).
    destruct (RegistryAdapterClient.success r3); reflexivity.
  - intros maxRetries.
    unfold RegistryAdapterClient.anchorDigestWithRetry, RegistryAdapterClient.ioBind.
    destruct (retryLoop_returns adapter (Z.to_nat maxRetries) c siteId dayUtc
                merkleRoot uri maxRetries 1 None w) as [r [w' ->]].
    destruct r; unfold RegistryAdapterClient.ioRet; eauto.
Qed.

(** The adapter fails twice and then accepts: the third response is
    returned, after three requests and the two delays. *)
Example retry_fails_twice_then_succeeds :
  let '(r, w) :=
    RegistryAdapterClient.anchorDigestWithRetry Examples.flakyAdapter
      (RegistryAdapterClient.newClient true) "PRJ001" "2024-06-21" "ab12" None
      RegistryAdapterClient.defaultMaxRetries Traces.initialWorld in
  r = Returned {| RegistryAdapterClient.adapterTxId := "tx-1";
                  RegistryAdapterClient.txHash := "0xabc";
                  RegistryAdapterClient.blockNumber := ofZ 7;
                  RegistryAdapterClient.success := true;
                  RegistryAdapterClient.error := None |} /\
  Traces.posts (RegistryAdapterClient.trace w) = 3%nat /\
  Traces.sleeps (RegistryAdapterClient.trace w) = [2000; 4000]%Z.
Proof. vm_compute. repeat split. Qed.

(** The adapter always fails: three requests, two delays, and a failure
    naming the attempt count and the last error. *)
Example retry_always_fails :
  let '(r, w) :=
    RegistryAdapterClient.anchorDigestWithRetry Examples.rejectingAdapter
      (RegistryAdapterClient.newClient true) "PRJ001" "2024-06-21" "ab12" None
      RegistryAdapterClient.defaultMaxRetries Traces.initialWorld in
  r = Returned (RegistryAdapterClient.failure
                  (Some "Failed after 3 attempts: registry unavailable"%string)) /\
  Traces.posts (RegistryAdapterClient.trace w) = 3%nat /\
  Traces.sleeps (RegistryAdapterClient.trace w) = [2000; 4000]%Z.
Proof. vm_compute. repeat split. Qed.

(** C10. With anchoring disabled in the configuration, [anchorDigest]
    returns at once the failure "Anchoring is disabled" with empty
    transaction fields, and [checkAnchorStatus] returns not-ok with the same
    error; neither issues a request: the world is left as it was. *)
Theorem disabled_client_sends_nothing
    (adapter : RegistryAdapterClient.Adapter)
    (siteId dayUtc merkleRoot : string) (uri : option string)
    (w : RegistryAdapterClient.World) :
  let c := RegistryAdapterClient.newClient false in
  RegistryAdapterClient.anchorDigest adapter c siteId dayUtc merkleRoot uri w =
    (Returned {| RegistryAdapterClient.adapterTxId := "";
                 RegistryAdapterClient.txHash := "";
                 RegistryAdapterClient.blockNumber := S754_zero false;
                 RegistryAdapterClient.success := false;
                 RegistryAdapterClient.error := Some "Anchoring is disabled"%string |},
     w) /\
  RegistryAdapterClient.checkAnchorStatus adapter c w =
    (Returned {| RegistryAdapterClient.ok := false;
                 RegistryAdapterClient.statusError := Some "Anchoring is disabled"%string |},
     w).
Proof. split; reflexivity. Qed.

(** ** The value of [next] *)

Section NextValue.

Local Open Scope Z_scope.

Lemma binary_round_aux_canonical (s : bool) (m : positive) (e : Z) :
  Zpos (digits2_pos m) = 53 -> -1074 <= e <= 971 ->
  binary_round_aux prec emax s (Zpos m) e loc_Exact = S754_finite s m e.
Proof.
  intros Hd He. unfold binary_round_aux, shr_fexp.
  cbn [Zdigits2 shr_record_of_loc].
  rewrite Hd.
  assert (fexp prec emax (53 + e) - e = 0) as ->.
  { unfold fexp, emin. change prec with 53. change emax with 1024. lia. }
  cbn [shr shr_m loc_of_shr_record round_nearest_even Zdigits2 shr_record_of_loc].
  rewrite Hd.
  assert (fexp prec emax (53 + e) - e = 0) as ->.
  { unfold fexp, emin. change prec with 53. change emax with 1024. lia. }
  cbn [shr shr_m].
  assert ((e <=? emax - prec) = true) as ->; [|reflexivity].
  apply Z.leb_le. change (emax - prec) with 971. lia.
Qed.

Lemma digits2_pos_iter_xO (m d : positive) :
  Zpos (digits2_pos (Pos.iter xO m d)) = Zpos (digits2_pos m) + Zpos d.
Proof.
  induction d as [|d IH] using Pos.peano_ind.
  - cbn. lia.
  - rewrite Pos.iter_succ. cbn [digits2_pos]. lia.
Qed.

Lemma Zpos_iter_xO (m d : positive) :
  Zpos (Pos.iter xO m d) = Zpos m * 2 ^ Zpos d.
Proof.
  induction d as [|d IH] using Pos.peano_ind.
  - cbn. lia.
  - rewrite Pos.iter_succ. rewrite Pos2Z.inj_xO, IH, Pos2Z.inj_succ, Z.pow_succ_r by lia. lia.
Qed.

(** A positive integer below 2^53 is represented exactly. *)
Lemma ofZ_small (p : positive) :
  Zpos (digits2_pos p) < 53 ->
  exists m, ofZ (Zpos p) = S754_finite false m (Zpos (digits2_pos p) - 53) /\
            Zpos (digits2_pos m) = 53 /\
            Zpos m = Zpos p * 2 ^ (53 - Zpos (digits2_pos p)).
Proof.
  intros Hd. unfold ofZ, binary_normalize, binary_round.
  assert (fexp prec emax (Zpos (digits2_pos p) + 0) = Zpos (digits2_pos p) - 53) as ->.
  { unfold fexp, emin. change prec with 53. change emax with 1024. lia. }
  unfold shl_align.
  destruct (Zpos (digits2_pos p) - 53 - 0) as [|d|d] eqn:Ed; try lia.
  exists (Pos.iter xO p d).
  assert (Zpos (digits2_pos (Pos.iter xO p d)) = 53) as Hd53.
  { rewrite digits2_pos_iter_xO. lia. }
  split; [|split].
  - apply binary_round_aux_canonical; [exact Hd53|lia].
  - exact Hd53.
  - rewrite Zpos_iter_xO. f_equal. f_equal. lia.
Qed.

End NextValue.

Section NextValue2.

Local Open Scope Z_scope.

(** Dividing a normalised number by 2^32 lowers its exponent by 32. *)
Lemma div_two32 (m : positive) (e : Z) :
  Zpos (digits2_pos m) = 53 -> -1000 <= e <= 900 ->
  div (S754_finite false m e) (ofZ 0x100000000) = S754_finite false m (e - 32).
Proof.
  intros Hd He.
  change (ofZ 0x100000000) with (S754_finite false 4503599627370496 (-20)).
  unfold div, SFdiv, SFdiv_core_binary.
  change (Zdigits2 4503599627370496) with 53.
  cbn [Zdigits2]. rewrite Hd.
  assert (Z.min (fexp prec emax (53 + e - (53 + -20))) (e - -20) = e - 33) as ->.
  { unfold fexp, emin. change prec with 53. change emax with 1024. lia. }
  replace (e - -20 - (e - 33)) with 53 by lia.
  cbv iota.
  assert (Z.div_eucl (Z.shiftl (Zpos m) 53) 4503599627370496 = (Zpos m~0, 0)) as ->.
  { rewrite Z.shiftl_mul_pow2 by lia.
    pose proof (Z.div_eucl_eq (Zpos m * 2 ^ 53) 4503599627370496 ltac:(lia)) as Hq.
    pose proof (Z.mod_pos_bound (Zpos m * 2 ^ 53) 4503599627370496 ltac:(lia)) as Hr.
    unfold Z.modulo in Hr.
    destruct (Z.div_eucl (Zpos m * 2 ^ 53) 4503599627370496) as [q r].
    change (2 ^ 53) with (2 * 4503599627370496) in Hq.
    assert (q = 2 * Zpos m) by nia. assert (r = 0) by nia. subst. reflexivity. }
  change (new_location 4503599627370496 0) with loc_Exact.
  cbn [xorb].
  unfold binary_round_aux, shr_fexp.
  cbn [Zdigits2 digits2_pos shr_record_of_loc].
  rewrite Pos2Z.inj_succ, Hd.
  assert (fexp prec emax (Z.succ 53 + (e - 33)) - (e - 33) = 1) as ->.
  { unfold fexp, emin. change prec with 53. change emax with 1024. lia. }
  cbn [shr SpecFloat.iter_pos shr_1 shr_m loc_of_shr_record round_nearest_even Zdigits2
       shr_record_of_loc orb].
  rewrite Hd.
  assert (fexp prec emax (53 + (e - 33 + 1)) - (e - 33 + 1) = 0) as ->.
  { unfold fexp, emin. change prec with 53. change emax with 1024. lia. }
  cbn [shr shr_m].
  assert ((e - 33 + 1 <=? emax - prec) = true) as ->.
  { apply Z.leb_le. change (emax - prec) with 971. lia. }
  f_equal. lia.
Qed.

End NextValue2.

Section NextValue3.

Import Util.
Local Open Scope Z_scope.

Lemma nextWord_range (st : Z * Z * Z * Z) : 0 <= nextWord st < 2 ^ 32.
Proof.
  destruct st as [[[a b] c] d]. unfold nextWord, ushr, toUint32.
  rewrite Z.shiftr_0_r. apply Z.mod_pos_bound. lia.
Qed.

Lemma next_shape (g : RNG) : unitShape (nextWord (state g)) (fst (next g)).
Proof.
  pose proof (nextWord_range (state g)) as Hw.
  unfold next. destruct (state g) as [[[a b] c] d]. cbn [fst].
  set (w := nextWord (a, b, c, d)) in *.
  destruct w as [|p|p] eqn:Ew; [left; split; reflexivity| |lia].
  right. split; [lia|].
  assert (Zpos (digits2_pos p) <= 32) as Hd.
  { apply (Zdigits2_le (Zpos p) 32); lia. }
  destruct (ofZ_small p ltac:(lia)) as [m [Hm [Hd53 Hval]]].
  exists m, (Zpos (digits2_pos p) - 53 - 32). rewrite Hm.
  split; [apply div_two32; [exact Hd53|lia]|].
  split; [lia|]. split; [lia|].
  rewrite Hval. f_equal. f_equal. lia.
Qed.

Lemma unitShape_bounds (w : Z) (v : number) :
  unitShape w v -> le (ofZ 0) v = true /\ lt v (ofZ 1) = true.
Proof.
  intros [[_ ->]|[_ [m [e [-> [He _]]]]]]; [split; reflexivity|].
  split; [reflexivity|].
  change (ofZ 1) with (S754_finite false 4503599627370496 (-52)).
  unfold lt, SFltb, SFcompare.
  assert ((e ?= -52) = Lt) as -> by (apply Z.compare_lt_iff; lia).
  reflexivity.
Qed.

(** A number of the unit interval against a threshold of at least 1, and
    against one that is not above 0. *)
Lemma unitShape_below (w : Z) (v p : number) :
  unitShape w v -> le (ofZ 1) p = true -> lt v p = true.
Proof.
  change (ofZ 1) with (S754_finite false 4503599627370496 (-52)).
  intros Hv Hp.
  destruct p as [sp|sp| |sp mp ep]; try discriminate Hp.
  - destruct sp; [discriminate Hp|].
    destruct Hv as [[_ ->]|[_ [m [e [-> _]]]]]; reflexivity.
  - destruct sp; [discriminate Hp|].
    destruct Hv as [[_ ->]|[_ [m [e [-> [He _]]]]]]; [reflexivity|].
    unfold le, SFleb, SFcompare in Hp.
    unfold lt, SFltb, SFcompare.
    destruct (-52 ?= ep) eqn:Ec.
    + apply Z.compare_eq in Ec. subst ep.
      assert ((e ?= -52) = Lt) as -> by (apply Z.compare_lt_iff; lia). reflexivity.
    + rewrite Z.compare_lt_iff in Ec.
      assert ((e ?= ep) = Lt) as -> by (apply Z.compare_lt_iff; lia). reflexivity.
    + discriminate Hp.
Qed.

Lemma unitShape_not_below (w : Z) (v p : number) :
  unitShape w v -> gt p (ofZ 0) = false -> lt v p = false.
Proof.
  change (ofZ 0) with (S754_zero false).
  intros Hv Hp.
  destruct Hv as [[_ ->]|[_ [m [e [-> _]]]]];
    destruct p as [sp|[|]| |[|] mp ep]; try reflexivity; discriminate Hp.
Qed.

End NextValue3.

(** X1. [next] returns a number of [0, 1): exactly [w / 2^32] for the
    32-bit word [w] that it computes from the state. *)
Theorem next_in_unit_interval (g : Util.RNG) :
  let v := fst (Util.next g) in
  le (ofZ 0) v = true /\ lt v (ofZ 1) = true /\
  (0 <= Util.nextWord (Util.state g) < 2 ^ 32)%Z /\
  unitShape (Util.nextWord (Util.state g)) v.
Proof.
  cbv zeta. pose proof (next_shape g) as Hs.
  destruct (unitShape_bounds _ _ Hs) as [H0 H1].
  repeat apply conj; try assumption; apply nextWord_range.
Qed.

Section ThresholdFacts.

Import Config Util PVSimulationModel.

Lemma boolean_value (p : number) (g : RNG) :
  fst (boolean p g) = lt (fst (next g)) p.
Proof. unfold boolean. destruct (next g) as [u g1]. reflexivity. Qed.

Lemma checkCurtailment_value (site : SiteConfig) (g : RNG) :
  fst (checkCurtailment site g) = lt (fst (next g)) (curtailmentPct site).
Proof.
  unfold checkCurtailment, bind, ret. destruct (next g) as [u g1]. reflexivity.
Qed.

(** The status and the power that [generateTelemetry] reports, from the
    outage check and the curtailment draw made after the weather. *)
Lemma generateTelemetry_status (H : Host) (site : SiteConfig) (date : JsDate.Date)
    (intervalMinutes : number) (g : RNG) :
  exists g3 : RNG,
    let row := fst (generateTelemetry H site date intervalMinutes g) in
    let isOutage := checkOutage H site date in
    let isCurtailed := negb isOutage && fst (checkCurtailment site g3) in
    status row = (if isOutage then "OUTAGE"
                  else if isCurtailed then "CURTAILED" else "OK")%string /\
    acPowerKw row =
      (if isOutage then ofZ 0
       else if isCurtailed then ofZ 0
       else if gt (poaIrrWm2 row) (ofZ 0)
            then calculateAcPower site (calculateDcPower site (poaIrrWm2 row) (tempC row))
            else ofZ 0).
Proof.
  unfold generateTelemetry, bind.
  destruct (calculateIrradiance H site date g) as [poa g1].
  destruct (calculateTemperature H site date g1) as [t g2].
  destruct (calculateWindSpeed H date g2) as [w g3].
  exists g3. cbv zeta.
  destruct (checkOutage H site date); cbn [negb andb].
  - split; reflexivity.
  - destruct (checkCurtailment site g3) as [c g4]. cbn [fst ret].
    destruct c; split; reflexivity.
Qed.

End ThresholdFacts.

(** X2. [boolean(p)] is true for every threshold of at least 1 and false
    for every threshold that is not above 0 (zero, negative or NaN). *)
Theorem boolean_thresholds (p : number) (g : Util.RNG) :
  (le (ofZ 1) p = true -> fst (Util.boolean p g) = true) /\
  (gt p (ofZ 0) = false -> fst (Util.boolean p g) = false).
Proof.
  rewrite boolean_value. split; intros Hp.
  - exact (unitShape_below _ _ _ (next_shape g) Hp).
  - exact (unitShape_not_below _ _ _ (next_shape g) Hp).
Qed.

(** X3. With a curtailment probability that is not above 0, as the
    schema's default 0.0, no record is CURTAILED: the status is OUTAGE
    inside an outage window and OK otherwise. *)
Theorem no_curtailment_at_zero
    (H : Host) (site : Config.SiteConfig) (date : JsDate.Date)
    (intervalMinutes : number) (g : Util.RNG) :
  gt (Config.curtailmentPct site) (ofZ 0) = false ->
  PVSimulationModel.status
    (fst (PVSimulationModel.generateTelemetry H site date intervalMinutes g)) =
  (if PVSimulationModel.checkOutage H site date then "OUTAGE" else "OK")%string.
Proof.
  intros Hp.
  destruct (generateTelemetry_status H site date intervalMinutes g) as [g3 [Hst _]].
  cbv zeta in Hst. rewrite Hst.
  destruct (PVSimulationModel.checkOutage H site date); [reflexivity|].
  rewrite checkCurtailment_value.
  rewrite (unitShape_not_below _ _ _ (next_shape g3) Hp). reflexivity.
Qed.

Lemma no_curtailment_at_zero_witness :
  PVSimulationModel.status
    (fst (PVSimulationModel.generateTelemetry SeriesHost.host Examples.testSite
            Examples.dayTime (ofZ 5) (PVSimulationModel.newModel 42))) =
  (if PVSimulationModel.checkOutage SeriesHost.host Examples.testSite Examples.dayTime
   then "OUTAGE" else "OK")%string.
Proof.
  apply (no_curtailment_at_zero SeriesHost.host Examples.testSite Examples.dayTime
           (ofZ 5) (PVSimulationModel.newModel 42)).
  vm_compute. reflexivity.
Defined.

(** X4. With a curtailment probability of at least 1, every record outside
    the outage windows is CURTAILED, with zero power. *)
Theorem full_curtailment_at_one
    (H : Host) (site : Config.SiteConfig) (date : JsDate.Date)
    (intervalMinutes : number) (g : Util.RNG) :
  le (ofZ 1) (Config.curtailmentPct site) = true ->
  PVSimulationModel.checkOutage H site date = false ->
  let row := fst (PVSimulationModel.generateTelemetry H site date intervalMinutes g) in
  PVSimulationModel.status row = "CURTAILED"%string /\
  PVSimulationModel.acPowerKw row = S754_zero false.
Proof.
  intros Hp Hout.
  destruct (generateTelemetry_status H site date intervalMinutes g) as [g3 [Hst Hpow]].
  cbv zeta in *. rewrite Hst, Hpow, Hout. cbn [negb andb].
  rewrite checkCurtailment_value.
  rewrite (unitShape_below _ _ _ (next_shape g3) Hp). split; reflexivity.
Qed.

Lemma full_curtailment_at_one_witness :
  let row := fst (PVSimulationModel.generateTelemetry SeriesHost.host Examples.outageSite
                    Examples.dayTime (ofZ 5) (PVSimulationModel.newModel 42)) in
  PVSimulationModel.status row = "CURTAILED"%string /\
  PVSimulationModel.acPowerKw row = S754_zero false.
Proof.
  apply (full_curtailment_at_one SeriesHost.host Examples.outageSite Examples.dayTime
           (ofZ 5) (PVSimulationModel.newModel 42)).
  - vm_compute. reflexivity.
  - vm_compute. reflexivity.
Defined.

(** X5. The status of a record is OK, OUTAGE or CURTAILED; the power is
    exactly 0 whenever the status is not OK, and whenever the irradiance is
    not above 0. *)
Theorem power_only_when_ok_and_sunlit
    (H : Host) (site : Config.SiteConfig) (date : JsDate.Date)
    (intervalMinutes : number) (g : Util.RNG) :
  let row := fst (PVSimulationModel.generateTelemetry H site date intervalMinutes g) in
  In (PVSimulationModel.status row) ["OK"; "OUTAGE"; "CURTAILED"]%string /\
  (PVSimulationModel.status row <> "OK"%string ->
   PVSimulationModel.acPowerKw row = S754_zero false) /\
  (gt (PVSimulationModel.poaIrrWm2 row) (ofZ 0) = false ->
   PVSimulationModel.acPowerKw row = S754_zero false).
Proof.
  destruct (generateTelemetry_status H site date intervalMinutes g) as [g3 [Hst Hpow]].
  cbv zeta in *. rewrite Hst, Hpow.
  destruct (PVSimulationModel.checkOutage H site date); cbn [negb andb].
  - repeat split; simpl; auto.
  - destruct (fst (PVSimulationModel.checkCurtailment site g3)).
    + repeat split; simpl; auto.
    + repeat split; simpl; auto.
      * intros Hne. now contradiction Hne.
      * intros Hdark. now rewrite Hdark.
Qed.

(** ** Outputs that are never negative *)

Section SignFacts.

Local Open Scope Z_scope.

Lemma binary_round_aux_nonNegative (mx ex : Z) (lx : location) :
  0 <= mx -> nonNegative (binary_round_aux prec emax false mx ex lx) = true.
Proof.
  intros Hm. unfold binary_round_aux.
  pose proof (shr_fexp_range mx ex lx Hm) as H1.
  destruct (shr_fexp prec emax mx ex lx) as [mrs' e'].
  destruct H1 as [Hr1 _].
  pose proof (round_nearest_even_range (shr_m mrs') (loc_of_shr_record mrs') (proj1 Hr1))
    as Hrn.
  set (m1 := round_nearest_even (shr_m mrs') (loc_of_shr_record mrs')) in *.
  pose proof (shr_fexp_range m1 e' loc_Exact (proj1 Hrn)) as H2.
  destruct (shr_fexp prec emax m1 e' loc_Exact) as [mrs'' e''].
  destruct H2 as [Hr2 _].
  destruct (shr_m mrs'') as [|p|p]; [reflexivity| |lia].
  destruct (e'' <=? emax - prec); reflexivity.
Qed.

Lemma ofZ_nonNegative (n : Z) : 0 <= n -> nonNegative (ofZ n) = true.
Proof.
  intros Hn. destruct n as [|p|p]; [reflexivity| |lia].
  unfold ofZ, binary_normalize, binary_round.
  destruct (shl_align p 0 _) as [mz ez].
  apply binary_round_aux_nonNegative. lia.
Qed.

Lemma mul_nonNegative (x : number) (F : positive) (ef : Z) :
  nonNegative x = true -> nonNegative (mul x (S754_finite false F ef)) = true.
Proof.
  destruct x as [s|[|]| |[|] m e]; try discriminate; intros _; try reflexivity.
  unfold mul, SFmul. cbn [xorb]. apply binary_round_aux_nonNegative. lia.
Qed.

Lemma div_nonNegative (x : number) (F : positive) (ef : Z) :
  nonNegative x = true -> nonNegative (div x (S754_finite false F ef)) = true.
Proof.
  destruct x as [s|[|]| |[|] m e]; try discriminate; intros _; try reflexivity.
  unfold div, SFdiv. cbn [xorb].
  unfold SFdiv_core_binary.
  set (e' := Z.min _ _). set (m' := match _ with 0 => Zpos m | _ => _ end).
  assert (0 <= m') as Hm'.
  { subst m'. destruct (e - ef - e') as [|p|p]; [lia| |lia].
    rewrite Z.shiftl_mul_pow2 by lia. apply Z.mul_nonneg_nonneg; [lia|].
    apply Z.pow_nonneg. lia. }
  pose proof (Z.div_eucl_eq m' (Zpos F) ltac:(lia)) as Hdiv.
  pose proof (Z.mod_pos_bound m' (Zpos F) ltac:(lia)) as Hmod.
  unfold Z.modulo in Hmod.
  destruct (Z.div_eucl m' (Zpos F)) as [q r].
  apply binary_round_aux_nonNegative. nia.
Qed.

Lemma Math_round_nonNegative (x : number) :
  nonNegative x = true -> nonNegative (Math_round x) = true.
Proof.
  destruct x as [s|[|]| |[|] m e]; try discriminate; intros _; try reflexivity.
  unfold Math_round. destruct (Z.leb_spec 0 e) as [He|He]; [reflexivity|].
  set (n := (2 * Zpos m + 2 ^ (- e)) / 2 ^ (1 - e)).
  assert (0 <= n) as Hn.
  { subst n. apply Z.div_pos.
    - assert (0 <= 2 ^ (- e)) by (apply Z.pow_nonneg; lia). lia.
    - apply Z.pow_pos_nonneg; lia. }
  destruct (n =? 0); [reflexivity|]. now apply ofZ_nonNegative.
Qed.

End SignFacts.

Section SignFacts2.

Import Config Util PVSimulationModel.

Lemma Math_max_zero (x : number) :
  isNaN (Math_max (ofZ 0) x) || nonNegative (Math_max (ofZ 0) x) = true.
Proof. destruct x as [[|]|[|]| |[|] m e]; reflexivity. Qed.

(** Rounding to one or to three decimals keeps a number that is not
    negative so. *)
Lemma roundToDecimals_nonNegative (x : number) (d : nat) :
  d = 1%nat \/ d = 3%nat ->
  isNaN x || nonNegative x = true ->
  isNaN (roundToDecimals x d) || nonNegative (roundToDecimals x d) = true.
Proof.
  intros Hd Hx. destruct (isNaN x) eqn:En.
  - destruct x; try discriminate En. destruct Hd as [-> | ->]; reflexivity.
  - cbn [orb] in Hx. apply orb_true_iff. right. unfold roundToDecimals.
    destruct Hd as [-> | ->].
    + change (ofZ (10 ^ Z.of_nat 1)) with (S754_finite false 5629499534213120 (-49)).
      apply div_nonNegative, Math_round_nonNegative, mul_nonNegative, Hx.
    + change (ofZ (10 ^ Z.of_nat 3)) with (S754_finite false 8796093022208000 (-43)).
      apply div_nonNegative, Math_round_nonNegative, mul_nonNegative, Hx.
Qed.

Lemma nonNegative_le (x : number) :
  isNaN x || nonNegative x = true -> isNaN x || le (ofZ 0) x = true.
Proof. destruct x as [[|]|[|]| |[|] m e]; try discriminate; reflexivity. Qed.

End SignFacts2.

(** X6. Irradiance, wind speed and DC power are never negative: each is at
    least 0, or NaN (which only a NaN from the site or the host's [Math]
    can cause). *)
Theorem weather_and_dc_power_not_negative
    (H : Host) (site : Config.SiteConfig) (date : JsDate.Date) (g : Util.RNG)
    (poaIrrWm2 tempC : number) :
  let irradiance := fst (PVSimulationModel.calculateIrradiance H site date g) in
  let wind := fst (PVSimulationModel.calculateWindSpeed H date g) in
  let dcPower := PVSimulationModel.calculateDcPower site poaIrrWm2 tempC in
  isNaN irradiance || le (ofZ 0) irradiance = true /\
  isNaN wind || le (ofZ 0) wind = true /\
  isNaN dcPower || le (ofZ 0) dcPower = true.
Proof.
  cbv zeta. repeat apply conj.
  - unfold PVSimulationModel.calculateIrradiance.
    destruct (le (PVSimulationModel.elevationAt H site date) (ofZ 0)); [reflexivity|].
    unfold PVSimulationModel.bind, PVSimulationModel.ret.
    destruct (PVSimulationModel.calculateCloudVariation H date g) as [cv g1].
    cbn [fst]. apply nonNegative_le, roundToDecimals_nonNegative; [now left|].
    apply Math_max_zero.
  - unfold PVSimulationModel.calculateWindSpeed, PVSimulationModel.bind,
           PVSimulationModel.ret.
    destruct (Util.range (ofZ 0) (ofZ 5) g) as [rv g1].
    cbn [fst]. apply nonNegative_le, roundToDecimals_nonNegative; [now left|].
    apply Math_max_zero.
  - unfold PVSimulationModel.calculateDcPower.
    apply nonNegative_le, roundToDecimals_nonNegative; [now right|].
    apply Math_max_zero.
Qed.

(** ** Outage windows *)

Section WindowFacts.

Import Config Util PVSimulationModel.

Lemma split_without_separator (c : ascii) (s : string) :
  JsString.includes s (String c EmptyString) = false ->
  JsString.split c s = [s].
Proof.
  induction s as [|a s IH]; intros Hinc; [reflexivity|].
  cbn [JsString.includes String.prefix] in Hinc.
  cbn [JsString.split].
  destruct (Ascii.eqb a c) eqn:Eac.
  - apply Ascii.eqb_eq in Eac. subst a.
    destruct (ascii_dec c c) as [_|Hne]; [|congruence].
    destruct s; discriminate Hinc.
  - apply orb_false_iff in Hinc as [_ Hinc]. now rewrite (IH Hinc).
Qed.

Lemma add_NaN_r (x : number) : add x NaN = NaN.
Proof. destruct x; reflexivity. Qed.

(** A time without a colon parses to NaN. *)
Lemma parseTime_without_colon (H : Host) (timeStr : string) :
  JsString.includes timeStr ":" = false -> parseTime H timeStr = NaN.
Proof.
  intros Hinc. unfold parseTime.
  rewrite (split_without_separator ":"%char timeStr Hinc).
  cbn [map]. apply add_NaN_r.
Qed.

Lemma inWindow_without_colon (H : Host) (date : JsDate.Date) (window : OutageWindow) :
  JsString.includes (start window) ":" = false \/
  JsString.includes (end_ window) ":" = false ->
  inWindow H date window = false.
Proof.
  intros [Hs|He]; unfold inWindow.
  - rewrite (parseTime_without_colon H _ Hs).
    assert (ge (utcHours date) NaN = false) as -> by reflexivity. reflexivity.
  - rewrite (parseTime_without_colon H _ He).
    assert (le (utcHours date) NaN = false) as ->
      by (unfold le, SFleb; destruct (utcHours date); reflexivity).
    now rewrite andb_false_r.
Qed.

End WindowFacts.

(** X7. An outage window whose start or end time is written without a
    colon never matches: its time parses to NaN, and if every window of a
    site is such, no timestamp is in an outage. *)
Theorem windows_without_colon_never_match
    (H : Host) (site : Config.SiteConfig) (date : JsDate.Date) :
  Forall (fun window =>
            JsString.includes (Config.start window) ":" = false \/
            JsString.includes (Config.end_ window) ":" = false)
         (Config.outageWindows site) ->
  PVSimulationModel.checkOutage H site date = false.
Proof.
  unfold PVSimulationModel.checkOutage.
  induction (Config.outageWindows site) as [|w ws IH]; intros Hall; [reflexivity|].
  inversion Hall as [|? ? Hw Hws]; subst.
  cbn [PVSimulationModel.checkOutageLoop].
  rewrite (inWindow_without_colon H date w Hw). now apply IH.
Qed.

Lemma windows_without_colon_never_match_witness :
  PVSimulationModel.checkOutage SeriesHost.host MoreExamples.hoursOnlySite
    Examples.morning = false.
Proof.
  apply (windows_without_colon_never_match SeriesHost.host MoreExamples.hoursOnlySite
           Examples.morning).
  repeat constructor.
Defined.

(** ** The values of [normal] *)

Section NormalFacts.

Import Util.

Variable H : Host.

(** [normal] looks at the state words and the spare value only. *)
Lemma normal_same (mean stdDev : number) (g g' : RNG) :
  state g = state g' -> _spare g = _spare g' ->
  fst (normal H mean stdDev g) = fst (normal H mean stdDev g') /\
  state (snd (normal H mean stdDev g)) = state (snd (normal H mean stdDev g')) /\
  _spare (snd (normal H mean stdDev g)) = _spare (snd (normal H mean stdDev g')).
Proof.
  intros Hst Hsp. unfold normal. rewrite <- Hsp.
  destruct (_spare g) as [v|]; [repeat split; assumption|].
  pose proof (next_value g g' Hst) as Hv1.
  pose proof (next_state g) as Hs1. pose proof (next_state g') as Hs1'.
  destruct (next g) as [u1 g1]. destruct (next g') as [u1' g1'].
  cbn [fst snd] in *. subst u1'.
  assert (state g1 = state g1') as Hst1 by congruence.
  pose proof (next_value g1 g1' Hst1) as Hv2.
  pose proof (next_state g1) as Hs2. pose proof (next_state g1') as Hs2'.
  destruct (next g1) as [u2 g2]. destruct (next g1') as [u2' g2'].
  cbn [fst snd] in *. subst u2'.
  cbn [state _spare]. repeat split; congruence.
Qed.

Lemma normalValues_same (mean stdDev : number) (n : nat) :
  forall g g' : RNG,
    state g = state g' -> _spare g = _spare g' ->
    normalValues H mean stdDev n g = normalValues H mean stdDev n g'.
Proof.
  induction n as [|n IH]; intros g g' Hst Hsp; [reflexivity|].
  cbn [normalValues].
  destruct (normal_same mean stdDev g g' Hst Hsp) as [Hv [Hst' Hsp']].
  destruct (normal H mean stdDev g) as [v g1].
  destruct (normal H mean stdDev g') as [v' g1'].
  cbn [fst snd] in *. subst v'. f_equal. now apply IH.
Qed.

(** Two calls of [normal] from an empty spare leave the state words as
    they were and the spare empty. *)
Lemma normal_twice (mean stdDev : number) (g : RNG) :
  _spare g = None ->
  let g2 := snd (normal H mean stdDev (snd (normal H mean stdDev g))) in
  state g2 = state g /\ _spare g2 = None.
Proof.
  intros Hsp. cbv zeta.
  pose proof (normal_state H mean stdDev g) as Hs1.
  assert (exists s, _spare (snd (normal H mean stdDev g)) = Some s) as [s Hs].
  { unfold normal. rewrite Hsp.
    destruct (next g) as [u1 g1]. destruct (next g1) as [u2 g2]. eauto. }
  set (g1 := snd (normal H mean stdDev g)) in *.
  assert (snd (normal H mean stdDev g1)
          = {| state := state g1; _spare := None; draws := draws g1 |}) as ->.
  { unfold normal. rewrite Hs. reflexivity. }
  cbn [state _spare]. split; [exact Hs1|reflexivity].
Qed.

End NormalFacts.

(** X8. On a generator whose spare is empty, as after construction,
    [normal] with fixed arguments returns two values in turn: the values
    from the third call on repeat those from the first. *)
Theorem normal_has_period_two
    (H : Host) (mean stdDev : number) (g : Util.RNG) (n : nat) :
  Util._spare g = None ->
  exists a b,
    normalValues H mean stdDev 2 g = [a; b] /\
    normalValues H mean stdDev (S (S n)) g = a :: b :: normalValues H mean stdDev n g.
Proof.
  intros Hsp.
  pose proof (normal_twice H mean stdDev g Hsp) as Htw. cbv zeta in Htw.
  cbn [normalValues].
  destruct (Util.normal H mean stdDev g) as [a g1]. cbn [snd] in Htw.
  destruct (Util.normal H mean stdDev g1) as [b g2].
  cbn [snd] in Htw. destruct Htw as [Hst Hsp2].
  exists a, b. split; [reflexivity|].
  f_equal. f_equal. apply normalValues_same; congruence.
Qed.

Lemma normal_has_period_two_witness :
  exists a b,
    normalValues SeriesHost.host (ofZ 0) (ofZ 2) 2 (Util.newRNG 42) = [a; b] /\
    normalValues SeriesHost.host (ofZ 0) (ofZ 2) 5 (Util.newRNG 42) =
    a :: b :: normalValues SeriesHost.host (ofZ 0) (ofZ 2) 3 (Util.newRNG 42).
Proof.
  apply (normal_has_period_two SeriesHost.host (ofZ 0) (ofZ 2) (Util.newRNG 42) 3).
  reflexivity.
Defined.

(** ** Comparisons and [clamp] *)

Section OrderFacts.

Lemma SFcompare_refl (x : number) : isNaN x = false -> SFcompare x x = Some Eq.
Proof.
  destruct x as [s|[|]| |[|] m e]; try discriminate; intros _; try reflexivity;
    cbn [SFcompare]; rewrite Z.compare_refl, Pos.compare_cont_refl; reflexivity.
Qed.

Lemma finite_compare_Gt (s : bool) (mx my : positive) (ex ey : Z) :
  SFcompare (S754_finite s mx ex) (S754_finite s my ey) = Some Gt ->
  SFcompare (S754_finite s my ey) (S754_finite s mx ex) = Some Lt.
Proof.
  pose proof (Pos.compare_cont_antisym mx my Eq) as Ha. cbn [CompOpp] in Ha.
  cbn [SFcompare]. rewrite (Z.compare_antisym ex ey), <- Ha.
  destruct s; destruct (ex ?= ey); cbn [CompOpp]; try discriminate; try reflexivity;
    destruct (Pos.compare_cont Eq mx my); cbn [CompOpp]; try discriminate; reflexivity.
Qed.

Lemma SFcompare_Gt (x y : number) :
  SFcompare x y = Some Gt -> SFcompare y x = Some Lt.
Proof.
  destruct x as [sx|[|]| |[|] mx ex]; destruct y as [sy|[|]| |[|] my ey];
    try discriminate; try reflexivity;
    try (destruct sx; try discriminate; reflexivity);
    try (destruct sy; try discriminate; reflexivity);
    apply finite_compare_Gt.
Qed.

Lemma le_refl (x : number) : isNaN x = false -> le x x = true.
Proof. intros Hx. unfold le, SFleb. now rewrite SFcompare_refl. Qed.

Lemma lt_le (x y : number) : lt x y = true -> le x y = true.
Proof. unfold lt, le, SFltb, SFleb. destruct (SFcompare x y) as [[| |]|]; congruence. Qed.

(** Two numbers neither of which is below the other, and neither NaN,
    compare as equal. *)
Lemma not_lt_le (x y : number) :
  isNaN x = false -> isNaN y = false ->
  lt x y = false -> lt y x = false -> le x y = true /\ le y x = true.
Proof.
  intros Hx Hy. unfold lt, le, SFltb, SFleb.
  destruct (SFcompare x y) as [[| |]|] eqn:Exy.
  - intros _. destruct (SFcompare y x) as [[| |]|] eqn:Eyx; try discriminate; auto.
    + apply SFcompare_Gt in Eyx. congruence.
    + destruct x, y; discriminate.
  - discriminate.
  - apply SFcompare_Gt in Exy. rewrite Exy. discriminate.
  - destruct x, y; discriminate.
Qed.

Lemma le_not_NaN (x y : number) : le x y = true -> isNaN x = false /\ isNaN y = false.
Proof. destruct x, y; try discriminate; split; reflexivity. Qed.

Lemma Math_max_bounds (x y : number) :
  isNaN x = false -> isNaN y = false ->
  isNaN (Math_max x y) = false /\
  le x (Math_max x y) = true /\ le y (Math_max x y) = true.
Proof.
  intros Hx Hy. unfold Math_max. rewrite Hx, Hy. cbn [orb].
  destruct (lt x y) eqn:Exy.
  - repeat split; [assumption|now apply lt_le|now apply le_refl].
  - destruct (lt y x) eqn:Eyx.
    + repeat split; [assumption|now apply le_refl|now apply lt_le].
    + destruct (not_lt_le x y Hx Hy Exy Eyx) as [Hle Hge].
      destruct x as [[|]| | |]; repeat split;
        try assumption; try (now apply le_refl).
Qed.

Lemma Math_min_bounds (x y : number) :
  isNaN x = false -> isNaN y = false ->
  isNaN (Math_min x y) = false /\
  le (Math_min x y) x = true /\ le (Math_min x y) y = true /\
  (Math_min x y = x \/ Math_min x y = y).
Proof.
  intros Hx Hy. unfold Math_min. rewrite Hx, Hy. cbn [orb].
  destruct (lt x y) eqn:Exy.
  - repeat split; [assumption|now apply le_refl|now apply lt_le|now left].
  - destruct (lt y x) eqn:Eyx.
    + repeat split; [assumption|now apply lt_le|now apply le_refl|now right].
    + destruct (not_lt_le x y Hx Hy Exy Eyx) as [Hle Hge].
      destruct x as [[|]| | |]; repeat split;
        try assumption; try (now apply le_refl); auto.
Qed.

End OrderFacts.

(** X9. [clamp(value, min, max)] with [min <= max] lies between [min] and
    [max] for every value that is not NaN, and is NaN for NaN. *)
Theorem clamp_within_bounds (value min max : number) :
  le min max = true ->
  (isNaN value = false ->
   le min (Util.clamp value min max) = true /\
   le (Util.clamp value min max) max = true) /\
  (isNaN value = true -> Util.clamp value min max = NaN).
Proof.
  intros Hmm. destruct (le_not_NaN _ _ Hmm) as [Hmin Hmax]. split.
  - intros Hv. unfold Util.clamp.
    destruct (Math_max_bounds value min Hv Hmin) as [Hn [_ Hlo]].
    destruct (Math_min_bounds (Math_max value min) max Hn Hmax)
      as [_ [_ [Hhi [Heq | Heq]]]]; rewrite Heq in *.
    + split; [exact Hlo|exact Hhi].
    + split; [exact Hmm|now apply le_refl].
  - intros Hv. destruct value; try discriminate Hv. reflexivity.
Qed.

Lemma clamp_within_bounds_witness :
  (isNaN (ofZ 63) = false ->
   le (ofZ (-10)) (Util.clamp (ofZ 63) (ofZ (-10)) (ofZ 50)) = true /\
   le (Util.clamp (ofZ 63) (ofZ (-10)) (ofZ 50)) (ofZ 50) = true) /\
  (isNaN (ofZ 63) = true -> Util.clamp (ofZ 63) (ofZ (-10)) (ofZ 50) = NaN).
Proof.
  apply (clamp_within_bounds (ofZ 63) (ofZ (-10)) (ofZ 50)).
  vm_compute. reflexivity.
Defined.

(** X10. [toTco2e] is a zero when the energy is a zero and the factor is
    finite, and when the factor is a zero and the energy is finite; against
    an infinite or NaN operand it is NaN. *)
Theorem toTco2e_of_zero (x z : number) :
  isZero z = true ->
  (isFinite x = true ->
   isZero (Config.toTco2e z x) = true /\ isZero (Config.toTco2e x z) = true) /\
  (isFinite x = false ->
   Config.toTco2e z x = NaN /\ Config.toTco2e x z = NaN).
Proof.
  intros Hz. destruct z as [sz| | |]; try discriminate Hz.
  split; intros Hx; destruct x as [sx|sx| |sx mx ex]; try discriminate Hx;
    split; reflexivity.
Qed.

Lemma toTco2e_of_zero_witness :
  (isFinite (ofDec 5 1) = true ->
   isZero (Config.toTco2e (ofZ 0) (ofDec 5 1)) = true /\
   isZero (Config.toTco2e (ofDec 5 1) (ofZ 0)) = true) /\
  (isFinite (ofDec 5 1) = false ->
   Config.toTco2e (ofZ 0) (ofDec 5 1) = NaN /\ Config.toTco2e (ofDec 5 1) (ofZ 0) = NaN).
Proof.
  apply (toTco2e_of_zero (ofDec 5 1) (ofZ 0)). reflexivity.
Defined.

(** ** More on the anchor client *)

Section RunFacts.

Import RegistryAdapterClient Runs Traces.

Variable adapter : Adapter.

(** One call of [anchorDigest] on an enabled client: one request, and a
    response that tells what the adapter did. *)
Lemma anchorDigest_enabled (siteId dayUtc merkleRoot : string) (uri : option string)
    (w : World) :
  anchorDigest adapter (newClient true) siteId dayUtc merkleRoot uri w =
  (Returned
     match onPost adapter (requests w) (requestOf siteId dayUtc merkleRoot uri) with
     | Returned data =>
         {| adapterTxId := dataAdapterTxId data; txHash := dataTxHash data;
            blockNumber := dataBlockNumber data; success := true; error := None |}
     | Thrown e => failure (Some (thrownText e))
     end,
   posted (requestOf siteId dayUtc merkleRoot uri) w).
Proof.
  unfold anchorDigest, newClient. cbn [enabled negb].
  unfold tryCatch, ioBind, clientPost, ioRet, posted, requestOf.
  destruct (onPost adapter (requests w) _) as [data|[re msg|msg|]]; reflexivity.
Qed.

Lemma requestOf_prefixed (siteId dayUtc merkleRoot : string) (uri : option string) :
  JsString.startsWith (hash (requestOf siteId dayUtc merkleRoot uri)) "0x" = true.
Proof.
  unfold requestOf. cbn [hash].
  destruct (JsString.startsWith merkleRoot "0x") eqn:E; [exact E|].
  unfold JsString.startsWith. cbn [String.append String.prefix].
  destruct (ascii_dec "0" "0") as [_|Hne]; [|congruence].
  destruct (ascii_dec "x" "x") as [_|Hne]; [|congruence].
  destruct merkleRoot; reflexivity.
Qed.





End RunFacts.

Section RunFacts2.

Import RegistryAdapterClient Runs Traces.

Variable adapter : Adapter.




End RunFacts2.

(** X11. An enabled client makes exactly one request per call of
    [anchorDigest], to [/v1/anchor], with the topic [IOT:<site>:<day>] and a
    hash that starts with [0x]: a root that already has the prefix is sent
    as it is, any other root gets the prefix. The call returns whatever the
    adapter does: the response succeeds exactly when the adapter answered,
    and a failed one carries empty identifiers and an error text. *)
Theorem anchorDigest_posts_one_prefixed_request
    (adapter : RegistryAdapterClient.Adapter) (siteId dayUtc merkleRoot : string)
    (uri : option string) (w : RegistryAdapterClient.World) :
  let request := Runs.requestOf siteId dayUtc merkleRoot uri in
  exists r,
    RegistryAdapterClient.anchorDigest adapter (RegistryAdapterClient.newClient true)
      siteId dayUtc merkleRoot uri w
    = (Returned r,
       {| RegistryAdapterClient.requests := S (RegistryAdapterClient.requests w);
          RegistryAdapterClient.trace :=
            RegistryAdapterClient.trace w
            ++ [RegistryAdapterClient.EPost "/v1/anchor" request] |}) /\
    RegistryAdapterClient.topic request = ("IOT:" ++ siteId ++ ":" ++ dayUtc)%string /\
    JsString.startsWith (RegistryAdapterClient.hash request) "0x" = true /\
    (RegistryAdapterClient.hash request = merkleRoot \/
     JsString.startsWith merkleRoot "0x" = false /\
     RegistryAdapterClient.hash request = ("0x" ++ merkleRoot)%string) /\
    (RegistryAdapterClient.success r = true <->
     exists data,
       RegistryAdapterClient.onPost adapter (RegistryAdapterClient.requests w) request
       = Returned data) /\
    (RegistryAdapterClient.success r = false ->
     RegistryAdapterClient.adapterTxId r = ""%string /\
     RegistryAdapterClient.txHash r = ""%string /\
     RegistryAdapterClient.error r <> None).
Proof.
  intros request. subst request.
  eexists. split; [apply anchorDigest_enabled|].
  split; [reflexivity|]. split; [apply requestOf_prefixed|].
  split.
  - unfold Runs.requestOf. cbn [RegistryAdapterClient.hash].
    destruct (JsString.startsWith merkleRoot "0x"); [left|right]; auto.
  - destruct (RegistryAdapterClient.onPost adapter _ _) as [data|e];
      cbn [RegistryAdapterClient.success RegistryAdapterClient.failure
           RegistryAdapterClient.adapterTxId RegistryAdapterClient.txHash
           RegistryAdapterClient.error].
    + split; [split; [intros _; now exists data|reflexivity]|discriminate].
    + split; [split; [discriminate|intros [data Hd]; discriminate]|].
      intros _. repeat apply conj; try reflexivity. discriminate.
Qed.

(** X12. An enabled client makes exactly one request per call of
    [checkAnchorStatus], to [/health]; the call returns, and reports the
    adapter as up exactly when the request answered with status 200. *)
Theorem checkAnchorStatus_one_health_request
    (adapter : RegistryAdapterClient.Adapter) (w : RegistryAdapterClient.World) :
  exists s,
    RegistryAdapterClient.checkAnchorStatus adapter (RegistryAdapterClient.newClient true) w
    = (Returned s,
       {| RegistryAdapterClient.requests := S (RegistryAdapterClient.requests w);
          RegistryAdapterClient.trace :=
            RegistryAdapterClient.trace w ++ [RegistryAdapterClient.EGet "/health"] |}) /\
    (RegistryAdapterClient.ok s = true <->
     RegistryAdapterClient.onGet adapter (RegistryAdapterClient.requests w) = Returned 200%Z).
Proof.
  unfold RegistryAdapterClient.checkAnchorStatus, RegistryAdapterClient.newClient.
  cbn [RegistryAdapterClient.enabled negb].
  unfold RegistryAdapterClient.tryCatch, RegistryAdapterClient.ioBind,
    RegistryAdapterClient.clientGet, RegistryAdapterClient.ioRet.
  destruct (RegistryAdapterClient.onGet adapter (RegistryAdapterClient.requests w))
    as [status|[re msg|msg|]]; eexists; (split; [reflexivity|]);
    cbn [RegistryAdapterClient.ok].
  - split.
    + intros H. apply Z.eqb_eq in H. now subst.
    + intros H. injection H as ->. reflexivity.
  - split; discriminate.
  - split; discriminate.
  - split; discriminate.
Qed.



(** X14. With [maxRetries] zero or negative, [anchorDigestWithRetry] makes
    no attempt: no request, no sleep, and the failed response reads
    [Failed after <maxRetries> attempts: undefined]. *)
Theorem retry_without_attempts
    (adapter : RegistryAdapterClient.Adapter) (c : RegistryAdapterClient.Client)
    (siteId dayUtc merkleRoot : string) (uri : option string) (maxRetries : Z)
    (w : RegistryAdapterClient.World)
    (Hmax : (maxRetries <= 0)%Z) :
  RegistryAdapterClient.anchorDigestWithRetry adapter c siteId dayUtc merkleRoot uri
    maxRetries w
  = (Returned (RegistryAdapterClient.failure
                 (Some ("Failed after " ++ JsString.ofInt maxRetries
                        ++ " attempts: undefined")%string)), w).
Proof.
  unfold RegistryAdapterClient.anchorDigestWithRetry.
  replace (Z.to_nat maxRetries) with 0%nat by lia. reflexivity.
Qed.

Lemma retry_without_attempts_witness :
  RegistryAdapterClient.anchorDigestWithRetry Examples.flakyAdapter
    (RegistryAdapterClient.newClient true) "PRJ001" "2024-06-21" "ab" None 0
    Traces.initialWorld
  = (Returned (RegistryAdapterClient.failure
                 (Some "Failed after 0 attempts: undefined"%string)), Traces.initialWorld).
Proof.
  apply (retry_without_attempts Examples.flakyAdapter (RegistryAdapterClient.newClient true)
           "PRJ001" "2024-06-21" "ab" None 0 Traces.initialWorld).
  lia.
Defined.





(** ** Digests *)

Section DigestFacts.

Import TelemetryGenerator Digests.

Lemma substring_all (s : string) : substring 0 (String.length s) s = s.
Proof.
  induction s as [|a s IH]; [reflexivity|].
  cbn [String.length substring]. now rewrite IH.
Qed.

Lemma removeFirst_prefix (root : string) :
  removeFirst "0x" ("0x" ++ root) = root.
Proof.
  change ("0x" ++ root)%string with (String "0" (String "x" root)).
  assert (String.prefix "0x" (String "0" (String "x" root)) = true) as Hp.
  { cbn [String.prefix].
    destruct (ascii_dec "0" "0") as [_|Hne]; [|congruence].
    destruct (ascii_dec "x" "x") as [_|Hne]; [|congruence].
    now destruct root. }
  cbn [removeFirst]. rewrite Hp.
  cbn [String.length Nat.sub substring]. rewrite Nat.sub_0_r. apply substring_all.
Qed.

Lemma aggregation_root_of_hashes (x : string) (l : list string) :
  aggregationBuildMerkleRoot (x :: l) = Util.buildMerkleRoot (x :: l).
Proof.
  destruct l as [|y l]; reflexivity.
Qed.

End DigestFacts.

(** X17. A digest made from the rows of a day verifies against the same
    rows: for a day with at least one row [generateAndStoreDigest] returns a
    digest with the row count and a root that starts with [0x], and
    [verifyDigestIntegrity] accepts it for every list of rows that has the
    same row hashes, in any order. *)
Theorem stored_digest_verifies
    (siteId dayUtc : string) (site : Config.SiteConfig)
    (telemetry telemetry' : list TelemetryGenerator.TelemetryRecord)
    (Hrows : telemetry <> [])
    (Hsame : Permutation (map TelemetryGenerator.rowHash telemetry)
               (map TelemetryGenerator.rowHash telemetry')) :
  exists digest,
    Digests.generateAndStoreDigest siteId dayUtc site telemetry = Returned digest /\
    Digests.rows digest = length telemetry /\
    JsString.startsWith (Digests.merkleRoot digest) "0x" = true /\
    Digests.verifyDigestIntegrity (Some digest) telemetry' = true.
Proof.
  unfold Digests.generateAndStoreDigest.
  destruct telemetry as [|t telemetry]; [congruence|].
  cbn [length Nat.eqb]. eexists. split; [reflexivity|].
  cbn [Digests.rows Digests.merkleRoot]. split; [reflexivity|]. split.
  - unfold JsString.startsWith. cbn [String.append String.prefix].
    destruct (ascii_dec "0" "0") as [_|Hne]; [|congruence].
    destruct (ascii_dec "x" "x") as [_|Hne]; [|congruence].
    now destruct (Util.buildMerkleRoot _).
  - unfold Digests.verifyDigestIntegrity. cbn [Digests.rows Digests.merkleRoot].
    pose proof (Permutation_length Hsame) as Hlen. rewrite !length_map in Hlen.
    rewrite <- Hlen. cbn [length]. rewrite Nat.eqb_refl. cbn [negb].
    rewrite removeFirst_prefix.
    rewrite (buildMerkleRoot_permutation _ _ Hsame). apply String.eqb_refl.
Qed.

Lemma stored_digest_verifies_witness :
  exists digest,
    Digests.generateAndStoreDigest "TEST001" "2024-06-21" Examples.testSite
      MoreExamples.twoRows = Returned digest /\
    Digests.rows digest = 2%nat /\
    JsString.startsWith (Digests.merkleRoot digest) "0x" = true /\
    Digests.verifyDigestIntegrity (Some digest) (rev MoreExamples.twoRows) = true.
Proof.
  apply (stored_digest_verifies "TEST001" "2024-06-21" Examples.testSite
           MoreExamples.twoRows (rev MoreExamples.twoRows)).
  - discriminate.
  - apply perm_swap.
Defined.

(** X18. The aggregation service's own copy of [buildMerkleRoot] returns
    the root that the utility returns for every non-empty list of hashes;
    for the empty list the copy returns the empty string and the utility
    the digest of the empty string. *)
Theorem aggregation_root_agrees_when_not_empty (hashes : list string) :
  (hashes <> [] ->
   Digests.aggregationBuildMerkleRoot hashes = Util.buildMerkleRoot hashes) /\
  Digests.aggregationBuildMerkleRoot [] = ""%string /\
  Digests.aggregationBuildMerkleRoot [] <> Util.buildMerkleRoot [].
Proof.
  split; [|split].
  - destruct hashes as [|x l]; [congruence|]. intros _.
    apply aggregation_root_of_hashes.
  - reflexivity.
  - vm_compute. discriminate.
Qed.

(** ** The telemetry generator *)

Section LoopFacts.

Import Config Util JsDate PVSimulationModel UtilText TelemetryGenerator Rows.

Variable H : Host.
Variable site : SiteConfig.







End LoopFacts.



Section DayFacts.

Import Rows TelemetryGenerator.


End DayFacts.



(** ** The telemetry table *)

Section StoreFacts.

Import Rows TelemetryGenerator.

Lemma fold_upsert_lookup (records : list TelemetryRecord) :
  forall (table : Table) (key : string * string),
    fold_left (fun t record => upsert record t) records table !! key
    = match lastFor key records with
      | Some record => Some record
      | None => table !! key
      end.
Proof.
  induction records as [|record rest IH]; intros table key; [reflexivity|].
  cbn [fold_left lastFor]. rewrite IH.
  destruct (lastFor key rest); [reflexivity|].
  unfold upsert. destruct (decide ((recSiteId record, recTsUtc record) = key)) as [<-|Hne].
  - apply lookup_insert_eq.
  - now apply lookup_insert_ne.
Qed.

Lemma lastFor_key (key : string * string) (records : list TelemetryRecord)
    (record : TelemetryRecord) :
  lastFor key records = Some record ->
  In record records /\ (recSiteId record, recTsUtc record) = key.
Proof.
  induction records as [|r rest IH]; [discriminate|].
  cbn [lastFor]. destruct (lastFor key rest) as [later|].
  - intros Heq. injection Heq as <-. destruct (IH eq_refl). split; [now right|assumption].
  - destruct (decide ((recSiteId r, recTsUtc r) = key)); [|discriminate].
    intros Heq. injection Heq as <-. split; [now left|assumption].
Qed.

Lemma lastFor_found (key : string * string) (records : list TelemetryRecord)
    (record : TelemetryRecord) :
  In record records -> (recSiteId record, recTsUtc record) = key ->
  exists later, lastFor key records = Some later.
Proof.
  induction records as [|r rest IH]; [intros []|].
  intros [->|Hin] Hkey; cbn [lastFor].
  - destruct (lastFor key rest) as [later|]; [now exists later|].
    destruct (decide _); [now exists record|contradiction].
  - destruct (IH Hin Hkey) as [later ->]. now exists later.
Qed.

End StoreFacts.

(** X21. Storing the same rows again changes nothing: [storeTelemetry] is
    idempotent on every table. *)
Theorem storeTelemetry_idempotent
    (site : Config.SiteConfig) (telemetryData : list PVSimulationModel.TelemetryData)
    (table : TelemetryGenerator.Table) :
  TelemetryGenerator.storeTelemetry site telemetryData
    (TelemetryGenerator.storeTelemetry site telemetryData table)
  = TelemetryGenerator.storeTelemetry site telemetryData table.
Proof.
  apply map_eq. intros key. unfold TelemetryGenerator.storeTelemetry.
  rewrite !fold_upsert_lookup.
  destruct (Rows.lastFor key _); reflexivity.
Qed.

(** X22. [storeTelemetry] writes only under the site's own id and the
    timestamps of the rows: every other key of the table keeps its row, and
    each timestamp of the rows then holds the record of one of the rows
    with that timestamp, with its row hash. *)
Theorem storeTelemetry_writes_own_rows_only
    (site : Config.SiteConfig) (telemetryData : list PVSimulationModel.TelemetryData)
    (table : TelemetryGenerator.Table) :
  let stored := TelemetryGenerator.storeTelemetry site telemetryData table in
  (forall siteId ts,
     (siteId <> Config.siteId site \/
      forall data, In data telemetryData -> PVSimulationModel.tsUtc data <> ts) ->
     stored !! (siteId, ts) = table !! (siteId, ts)) /\
  (forall data, In data telemetryData ->
     exists data',
       In data' telemetryData /\
       PVSimulationModel.tsUtc data' = PVSimulationModel.tsUtc data /\
       stored !! (Config.siteId site, PVSimulationModel.tsUtc data)
       = Some (TelemetryGenerator.toRecord site data')).
Proof.
  intros stored. subst stored. unfold TelemetryGenerator.storeTelemetry. split.
  - intros siteId ts Hother. rewrite fold_upsert_lookup.
    destruct (Rows.lastFor _ _) as [record|] eqn:El; [|reflexivity].
    apply lastFor_key in El. destruct El as [Hin Hkey].
    apply in_map_iff in Hin. destruct Hin as [data [<- Hin]].
    cbn [TelemetryGenerator.toRecord TelemetryGenerator.recSiteId
         TelemetryGenerator.recTsUtc] in Hkey.
    injection Hkey as Hs Ht. destruct Hother as [Hne|Hne].
    + congruence.
    + exfalso. exact (Hne data Hin Ht).
  - intros data Hin. rewrite fold_upsert_lookup.
    destruct (lastFor_found (Config.siteId site, PVSimulationModel.tsUtc data)
                (map (TelemetryGenerator.toRecord site) telemetryData)
                (TelemetryGenerator.toRecord site data)) as [later Hl].
    + apply in_map. exact Hin.
    + reflexivity.
    + rewrite Hl. apply lastFor_key in Hl. destruct Hl as [Hin' Hkey].
      apply in_map_iff in Hin'. destruct Hin' as [data' [<- Hin']].
      cbn [TelemetryGenerator.toRecord TelemetryGenerator.recSiteId
           TelemetryGenerator.recTsUtc] in Hkey.
      injection Hkey as Ht. exists data'. repeat apply conj; auto.
Qed.

(** ** The order of numbers is transitive *)

Section OrderFacts2.

Ltac compare_cases :=
  repeat match goal with
  | |- context [(?a ?= ?b)%Z] => destruct (Z.compare_spec a b)
  | |- context [(?a ?= ?b)%positive] => destruct (Pos.compare_spec a b)
  end.

Lemma le_trans (x y z : number) :
  le x y = true -> le y z = true -> le x z = true.
Proof.
  unfold le, SFleb.
  destruct x as [[|]|[|]| |[|] mx ex]; destruct y as [[|]|[|]| |[|] my ey];
    cbn [SFcompare]; try discriminate;
    destruct z as [[|]|[|]| |[|] mz ez];
    cbn [SFcompare]; try discriminate; try reflexivity;
    change (Pos.compare_cont Eq) with Pos.compare;
    compare_cases; cbn [CompOpp]; try discriminate; try reflexivity;
    intros _ _; exfalso; subst; lia.
Qed.

Lemma le_lt_false (x y : number) : le x y = true -> lt y x = false.
Proof.
  unfold le, lt, SFleb, SFltb.
  destruct (SFcompare y x) as [[| |]|] eqn:Eyx; try reflexivity.
  destruct x as [[|]|[|]| |[|] mx ex]; destruct y as [[|]|[|]| |[|] my ey];
    cbn [SFcompare] in *; try discriminate;
    revert Eyx; change (Pos.compare_cont Eq) with Pos.compare;
    compare_cases; cbn [CompOpp]; try discriminate;
    intros _ _; exfalso; subst; lia.
Qed.

End OrderFacts2.

(** X25. Outage windows whose end is before their start, as windows
    written across midnight, match no time of day: with only such windows
    [checkOutage] reports no outage, at any time and on any day. *)
Theorem windows_across_midnight_never_match
    (H : Host) (site : Config.SiteConfig) (date : JsDate.Date)
    (Hends : Forall (fun window =>
                       lt (PVSimulationModel.parseTime H (Config.end_ window))
                         (PVSimulationModel.parseTime H (Config.start window)) = true)
               (Config.outageWindows site)) :
  PVSimulationModel.checkOutage H site date = false.
Proof.
  unfold PVSimulationModel.checkOutage.
  induction Hends as [|window rest Hend _ IH]; [reflexivity|].
  cbn [PVSimulationModel.checkOutageLoop].
  assert (PVSimulationModel.inWindow H date window = false) as Hw.
  { unfold PVSimulationModel.inWindow. cbv zeta.
    destruct (ge _ _) eqn:Eg; [|reflexivity].
    destruct (le _ _) eqn:El; [|reflexivity].
    unfold ge in Eg. pose proof (le_trans _ _ _ Eg El) as Hle.
    apply le_lt_false in Hle. unfold lt in *. congruence. }
  now rewrite Hw.
Qed.

Lemma windows_across_midnight_never_match_witness :
  PVSimulationModel.checkOutage SeriesHost.host MoreExamples.overnightSite
    Examples.nightTime = false.
Proof.
  apply (windows_across_midnight_never_match SeriesHost.host MoreExamples.overnightSite
           Examples.nightTime).
  repeat constructor.
Defined.

(** ** Time and CSV utilities *)

Section TextFacts.

Import JsDate UtilText.

Lemma hour_start_facts (d : Z) :
  let d' := (d - d mod 3600000)%Z in
  (d' / msPerDay = d / msPerDay /\
   getUTCHours d' = getUTCHours d /\
   getUTCMinutes d' = 0 /\
   (d' / 1000) mod 60 = 0 /\
   d' mod 1000 = 0)%Z.
Proof.
  intros d'. subst d'. unfold msPerDay, getUTCHours, getUTCMinutes.
  pose proof (Z.div_mod d 3600000 ltac:(lia)) as Hd.
  set (h := (d / 3600000)%Z) in *.
  replace (d - d mod 3600000)%Z with (h * 3600000)%Z by lia.
  repeat apply conj.
  - replace (h * 3600000)%Z with (h * 3600000 / 3600000 * 3600000)%Z at 1
      by (rewrite Z.div_mul by lia; reflexivity).
    rewrite Z.div_mul by lia.
    change 86400000%Z with (3600000 * 24)%Z.
    rewrite <- !Z.div_div by lia. rewrite Z.div_mul by lia. reflexivity.
  - rewrite Z.div_mul by lia. reflexivity.
  - replace (h * 3600000)%Z with (h * 60 * 60000)%Z by lia.
    rewrite Z.div_mul by lia. apply Z.mod_mul. lia.
  - replace (h * 3600000)%Z with (h * 3600 * 1000)%Z by lia.
    rewrite Z.div_mul by lia.
    replace (h * 3600)%Z with (h * 60 * 60)%Z by lia. apply Z.mod_mul. lia.
  - replace (h * 3600000)%Z with (h * 3600 * 1000)%Z by lia. apply Z.mod_mul. lia.
Qed.

Lemma getHourUtc_hour_start (d : Date) :
  getHourUtc d = formatUtc (d - d mod 3600000)%Z.
Proof.
  destruct (hour_start_facts d) as [Hday [Hh [Hm [Hs Hms]]]].
  unfold getHourUtc, formatUtc, toISOString.
  rewrite Hday, Hh, Hm, Hs, Hms.
  destruct (civilFromDays (d / msPerDay)) as [[y m] dd].
  reflexivity.
Qed.

Lemma append_cons (c : ascii) (s t : string) :
  (String c s ++ t)%string = String c (s ++ t)%string.
Proof. reflexivity. Qed.

Lemma append_empty (t : string) : (EmptyString ++ t)%string = t.
Proof. reflexivity. Qed.

Lemma doubleQuotes_cancel (a : string) :
  forall b : string,
    (doubleQuotes a ++ String dquote EmptyString)%string
    = (doubleQuotes b ++ String dquote EmptyString)%string ->
    a = b.
Proof.
  induction a as [|c a IH]; intros [|c' b]; cbn [doubleQuotes].
  - reflexivity.
  - destruct (Ascii.eqb_spec c' dquote) as [->|Hne];
      rewrite ?append_cons, ?append_empty; intros Heq.
    + injection Heq as Heq. destruct (doubleQuotes b); discriminate.
    + injection Heq as Hc _. congruence.
  - destruct (Ascii.eqb_spec c dquote) as [->|Hne];
      rewrite ?append_cons, ?append_empty; intros Heq.
    + injection Heq as Heq. destruct (doubleQuotes a); discriminate.
    + injection Heq as Hc _. congruence.
  - destruct (Ascii.eqb_spec c dquote) as [->|Hne];
      destruct (Ascii.eqb_spec c' dquote) as [->|Hne'];
      rewrite ?append_cons; intros Heq.
    + injection Heq as Heq. f_equal. now apply IH.
    + injection Heq as Hc _. congruence.
    + injection Heq as Hc _. congruence.
    + injection Heq as Hc Heq. subst. f_equal. now apply IH.
Qed.

Lemma includesChar_head (c : ascii) (s : string) :
  includesChar (String c s) c = true.
Proof.
  unfold includesChar. cbn [JsString.includes String.prefix].
  destruct (ascii_dec c c) as [_|Hne]; [|congruence].
  now destruct s.
Qed.

End TextFacts.

(** X23. For a date whose year has four digits, [getHourUtc] is the
    timestamp of the start of the date's UTC hour. *)
Theorem getHourUtc_is_start_of_hour (d : JsDate.Date)
    (Hyear : (0 <= JsDate.getUTCFullYear d <= 9999)%Z) :
  UtilText.getHourUtc d = UtilText.formatUtc (d - d mod 3600000)%Z /\
  (d - d mod 3600000 <= d < d - d mod 3600000 + 3600000)%Z.
Proof.
  split; [apply getHourUtc_hour_start|].
  pose proof (Z.mod_pos_bound d 3600000 ltac:(lia)). lia.
Qed.

Lemma getHourUtc_is_start_of_hour_witness :
  UtilText.getHourUtc 1718962496789%Z
  = UtilText.formatUtc (1718962496789 - 1718962496789 mod 3600000)%Z /\
  (1718962496789 - 1718962496789 mod 3600000 <= 1718962496789
   < 1718962496789 - 1718962496789 mod 3600000 + 3600000)%Z.
Proof.
  apply (getHourUtc_is_start_of_hour 1718962496789%Z).
  vm_compute. split; discriminate.
Defined.

(** X24. [escapeCsvValue] loses nothing: two strings with the same escaped
    form are the same string. *)
Theorem escapeCsvValue_injective (a b : string) :
  UtilText.escapeCsvValue a = UtilText.escapeCsvValue b -> a = b.
Proof.
  unfold UtilText.escapeCsvValue.
  destruct (UtilText.includesChar a _ || _ || _) eqn:Ea;
    destruct (UtilText.includesChar b _ || _ || _) eqn:Eb; intros Heq.
  - injection Heq as Heq. now apply doubleQuotes_cancel.
  - subst b. rewrite includesChar_head in Eb.
    rewrite orb_true_r in Eb. discriminate.
  - subst a. rewrite includesChar_head in Ea.
    rewrite orb_true_r in Ea. discriminate.
  - exact Heq.
Qed.

Lemma escapeCsvValue_injective_witness :
  "a,b"%string = "a,b"%string.
Proof.
  apply (escapeCsvValue_injective "a,b" "a,b"). reflexivity.
Defined.

(** X26. The table stays consistent under [storeTelemetry]: when every row
    is stored under its own site and timestamp and carries the hash of its
    own fields, the same holds after storing any rows of any site. *)
Theorem storeTelemetry_keeps_rows_consistent
    (site : Config.SiteConfig) (telemetryData : list PVSimulationModel.TelemetryData)
    (table : TelemetryGenerator.Table)
    (Htable : map_Forall Rows.rowConsistent table) :
  map_Forall Rows.rowConsistent
    (TelemetryGenerator.storeTelemetry site telemetryData table).
Proof.
  intros key record. unfold TelemetryGenerator.storeTelemetry.
  rewrite fold_upsert_lookup.
  destruct (Rows.lastFor key _) as [later|] eqn:El.
  - intros Heq. injection Heq as <-.
    apply lastFor_key in El. destruct El as [Hin Hkey].
    apply in_map_iff in Hin. destruct Hin as [data [<- _]].
    split; [now rewrite <- Hkey|reflexivity].
  - apply Htable.
Qed.

Lemma storeTelemetry_keeps_rows_consistent_witness :
  map_Forall Rows.rowConsistent
    (TelemetryGenerator.storeTelemetry Examples.testSite
       (fst (TelemetryGenerator.generateTelemetry SeriesHost.host Examples.testSite
               0%Z 900000%Z 5 (Util.newRNG 42))) ∅).
Proof.
  apply (storeTelemetry_keeps_rows_consistent Examples.testSite _ ∅).
  apply map_Forall_empty.
Defined.

Lemma append_assoc_string (s t u : string) :
  ((s ++ t) ++ u)%string = (s ++ (t ++ u))%string.
Proof.
  induction s as [|x s IH]; [reflexivity|].
  now rewrite !append_cons, IH.
Qed.

(** X27. [hashTelemetryRow] joins its fields with a bar and does not escape
    them: moving a bar-separated part from the end of the site id to the
    front of the timestamp gives the same row hash. *)
Theorem hashTelemetryRow_joins_without_escaping
    (a b c : string) (acEnergyKwh acPowerKw poaIrrWm2 tempC : number) (status : string) :
  Util.hashTelemetryRow (a ++ "|" ++ b) c acEnergyKwh acPowerKw poaIrrWm2 tempC status
  = Util.hashTelemetryRow a (b ++ "|" ++ c) acEnergyKwh acPowerKw poaIrrWm2 tempC status.
Proof.
  unfold Util.hashTelemetryRow, JsString.join. cbv zeta. f_equal.
  cbn [String.concat].
  rewrite !append_assoc_string. reflexivity.
Qed.
